(** * Software-Challenge Python client: board model and session handling

    A shallow embedding of
      - [src/SoftwareChallengeClient/api/sc/Plugin2023.py]
        (vectors, coordinates, fields, boards, game states), and
      - [socha/api/networking/game_client.py]
        (packet dispatch, stop, join and the room-left procedure),
    followed by the properties established about them.

    Python integers are unbounded, so they are embedded as [Z]; [//] and [%]
    are floor division and floor remainder, i.e. [Z.div] and [Z.modulo].
    Code that may raise returns in the error monad [Py.res]. *)

From Stdlib Require Import ZArith List Bool String Lia.
Import ListNotations.
Open Scope Z_scope.

(** ** Python primitives used by the two modules *)

Module Py.

(** The exceptions that the embedded code can raise. *)
Inductive exn : Type :=
| IndexError
| ZeroDivisionError
| NotImplementedError (msg : string)
| Exception (msg : string).

Inductive res (A : Type) : Type :=
| Ok (a : A)
| Raise (e : exn).
Arguments Ok {A} a.
Arguments Raise {A} e.

Definition bind {A B} (m : res A) (k : A -> res B) : res B :=
  match m with
  | Ok a => k a
  | Raise e => Raise e
  end.

Definition is_ok {A} (m : res A) : bool :=
  match m with Ok _ => true | Raise _ => false end.

(** [len(l)] *)
Definition len {A} (l : list A) : Z := Z.of_nat (List.length l).

(** [range(a, b)] and [range(n)] *)
Definition range2 (a b : Z) : list Z :=
  map (fun k => a + Z.of_nat k) (seq 0 (Z.to_nat (b - a))).
Definition range (n : Z) : list Z := range2 0 n.

(** [l[i]]: a negative index counts from the end, anything outside
    raises [IndexError]. *)
Definition getitem {A} (l : list A) (i : Z) : res A :=
  let j := if i <? 0 then i + len l else i in
  if j <? 0 then Raise IndexError
  else match nth_error l (Z.to_nat j) with
       | Some a => Ok a
       | None => Raise IndexError
       end.

(** [int(n / 2)] for an integer numerator [n]: true division gives the
    half-integer [n/2] (exactly, as long as [|n| < 2^53]) and [int]
    truncates it towards zero.  From [2^53] on the float is rounded, and
    beyond the range of floats the division raises [OverflowError]; a
    statement that rests on the value for arbitrary [n] carries the bound
    as a hypothesis. *)
Definition int_half (n : Z) : Z := Z.quot n 2.

(** A [for] loop threading an accumulator; an exception in the body
    leaves the loop. *)
Fixpoint for_ {A S} (l : list A) (body : S -> A -> res S) (s : S) : res S :=
  match l with
  | [] => Ok s
  | a :: l' => bind (body s a) (for_ l' body)
  end.

(** A list comprehension [[f(i) for i in l]]. *)
Fixpoint comprehension {A B} (f : A -> res B) (l : list A) : res (list B) :=
  match l with
  | [] => Ok []
  | a :: l' => bind (f a) (fun b => bind (comprehension f l') (fun bs => Ok (b :: bs)))
  end.


End Py.

Import Py.

Declare Scope py_scope.
Notation "x <- m ;; k" := (Py.bind m (fun x => k))
  (at level 61, m at next level, right associativity) : py_scope.
Open Scope py_scope.

(** ** Plugin2023.py *)

(** *** class Vector *)

Record Vector : Type := mkVector { dx : Z; dy : Z }.

Definition Vector_times (self : Vector) (scalar : Z) : Vector :=
  mkVector (dx self * scalar) (dy self * scalar).

Definition Vector_plus (self other : Vector) : Vector :=
  mkVector (dx self + dx other) (dy self + dy other).

Definition Vector_minus (self other : Vector) : Vector :=
  mkVector (dx self - dx other) (dy self - dy other).

Definition Vector_compareTo (self other : Vector) : bool :=
  (dx self =? dx other) && (dy self =? dy other).

Definition DIRECTIONS : list Vector :=
  [ mkVector 1 (-1);    (* UP RIGHT *)
    mkVector (-2) 0;    (* LEFT *)
    mkVector 1 1;       (* DOWN RIGHT *)
    mkVector (-1) 1;    (* DOWN LEFT *)
    mkVector 2 0;       (* RIGHT *)
    mkVector (-1) (-1)  (* UP LEFT *) ].

Definition Vector_isOneHexMove (self : Vector) : bool :=
  (Z.abs (dx self) =? Z.abs (dy self))
  || ((dx self mod 2 =? 0) && (dy self =? 0)).

(** *** class Coordinates *)

Record Coordinates : Type := mkCoordinates { x : Z; y : Z; isDouble : bool }.

Definition Vector_toCoordinates (self : Vector) : Coordinates :=
  mkCoordinates (dx self) (dy self) true.

Definition Coordinates_getVector (self : Coordinates) : Vector :=
  mkVector (x self) (y self).

(** [1 if self.y % 2 == 1 else 0] *)
Definition row_offset (self : Coordinates) : Z :=
  if y self mod 2 =? 1 then 1 else 0.

Definition arrayToDoubleHex (self : Coordinates) : Coordinates :=
  mkCoordinates (x self * 2 + row_offset self) (y self) true.

(** [int(self.x / 2 - off)]: the float [self.x / 2 - off] is the
    half-integer [(self.x - 2 * off) / 2]. *)
Definition doubleHexToArray (self : Coordinates) : Coordinates :=
  mkCoordinates (Py.int_half (x self - 2 * row_offset self)) (y self) false.

Definition getArray (self : Coordinates) : Coordinates :=
  if negb (isDouble self) then self else doubleHexToArray self.

Definition getDoubleHex (self : Coordinates) : Coordinates :=
  if isDouble self then self else arrayToDoubleHex self.

Definition addVector (self : Coordinates) (vector : Vector) : Coordinates :=
  if isDouble self
  then Vector_toCoordinates (Vector_plus (Coordinates_getVector self) vector)
  else getArray
         (Vector_toCoordinates
            (Vector_plus (Coordinates_getVector (getDoubleHex self)) vector)).

Definition minusVector (self : Coordinates) (vector : Vector) : Coordinates :=
  Vector_toCoordinates (Vector_minus (Coordinates_getVector self) vector).

Definition getDistance (self other : Coordinates) : Coordinates :=
  Vector_toCoordinates
    (Vector_minus (Coordinates_getVector self) (Coordinates_getVector other)).

(** *** class Move

    The two coordinates are kept in [fieldValues = [fromCoo, toCoo]] of a
    serialisation wrapper; [fromCoo] may be [None]. *)

Record Move : Type := mkMove { fromCoo : option Coordinates; toCoo : Coordinates }.

Definition Move_init (toCoo : Coordinates) (fromCoo : option Coordinates) : Move :=
  mkMove fromCoo toCoo.

Definition Move_move (origin : Coordinates) (delta : Vector) : Move :=
  Move_init (addVector origin delta) (Some origin).

(** *** class Team *)

(** The two dictionaries [self.ONE] and [self.TWO]. *)
Inductive TeamEnum : Type := ONE | TWO.

Definition enum_opponent (e : TeamEnum) : string :=
  match e with ONE => "TWO" | TWO => "ONE" end.
Definition enum_name (e : TeamEnum) : string :=
  match e with ONE => "ONE" | TWO => "TWO" end.
Definition enum_letter (e : TeamEnum) : string :=
  match e with ONE => "R" | TWO => "B" end.
Definition enum_color (e : TeamEnum) : string :=
  match e with ONE => "Rot" | TWO => "Blau" end.

Record Team : Type := mkTeam { teamEnum : TeamEnum }.

Definition Team_init (color : string) : res Team :=
  if String.eqb color "ONE" then Ok (mkTeam ONE)
  else if String.eqb color "TWO" then Ok (mkTeam TWO)
  else Raise (Exception ("Invalid : " ++ color)).

Definition Team_color (self : Team) : string := enum_color (teamEnum self).

Definition Team_opponent (self : Team) : res Team :=
  Team_init (enum_opponent (teamEnum self)).

(** [Team.__eq__] against another [Team] *)
Definition Team_eq (self o : Team) : bool :=
  String.eqb (enum_name (teamEnum self)) (enum_name (teamEnum o)).

(** *** class Field

    [self.field] holds [None] (or another falsy raw value), an [int], or a
    [Team].  The class defines no [__eq__], so [==] and [!=] between two
    fields compare object identity, kept here as [oid]. *)

Inductive FieldValue : Type :=
| FNone
| FInt (n : Z)
| FTeam (t : Team).

Record Field : Type := mkField { oid : nat; field : FieldValue }.

Definition Field_isEmpty (self : Field) : bool :=
  match field self with FInt n => n =? 0 | _ => false end.

Definition Field_isOccupied (self : Field) : bool :=
  match field self with FTeam _ => true | _ => false end.

(** [None if self.isOccupied() else self.field], as the integer it holds
    if any. *)
Definition Field_getFish (self : Field) : option Z :=
  if Field_isOccupied self then None
  else match field self with FInt n => Some n | _ => None end.

Definition Field_getPenguin (self : Field) : option Team :=
  match field self with FTeam t => Some t | _ => None end.

(** [a != b] on two [Field] objects *)
Definition Field_ne (a b : Field) : bool := negb (Nat.eqb (oid a) (oid b)).

(** *** class HexBoard *)

Record HexBoard : Type := mkHexBoard { gameField : list (list Field) }.

Definition HexBoard_isValid (self : HexBoard) (coordinates : Coordinates) : res bool :=
  let arrayCoordinates := getArray coordinates in
  if (0 <=? x arrayCoordinates) && (x arrayCoordinates <? len (gameField self))
  then row0 <- getitem (gameField self) 0 ;;
       Ok ((0 <=? y arrayCoordinates) && (y arrayCoordinates <? len row0))
  else Ok false.

Definition width (self : HexBoard) : Z := len (gameField self).

Definition height (self : HexBoard) : res Z :=
  row0 <- getitem (gameField self) 0 ;; Ok (len row0).

Definition HexBoard__getField (self : HexBoard) (x y : Z) : res Field :=
  row <- getitem (gameField self) x ;; getitem row y.

Definition getField (self : HexBoard) (position : Coordinates) : res Field :=
  let arrayCoordinates := getArray position in
  v <- HexBoard_isValid self arrayCoordinates ;;
  if v then HexBoard__getField self (x arrayCoordinates) (y arrayCoordinates)
  else Raise IndexError.

Definition getFieldOrNone (self : HexBoard) (position : Coordinates) : res (option Field) :=
  let position := getArray position in
  v <- HexBoard_isValid self position ;;
  if v then f <- HexBoard__getField self (x position) (y position) ;; Ok (Some f)
  else Ok None.

Definition HexBoard_isOccupied (self : HexBoard) (coordinates : Coordinates) : res bool :=
  let arrayCoordinates := getArray coordinates in
  f <- getField self arrayCoordinates ;; Ok (Field_isOccupied f).

Definition getFieldByIndex (self : HexBoard) (index : Z) : res Field :=
  if width self =? 0 then Raise ZeroDivisionError
  else
    let x := index / width self in
    let y := index mod width self in
    getField self (mkCoordinates x y false).

Definition getAllFields (self : HexBoard) : res (list Field) :=
  h <- height self ;;
  comprehension (getFieldByIndex self) (range (width self * h)).

Definition HexBoard_compareTo (self other : HexBoard) : res (list Field) :=
  for_ (range (len (gameField self)))
    (fun fields x =>
       row0 <- getitem (gameField self) 0 ;;
       for_ (range (len row0))
         (fun fields y =>
            a <- HexBoard__getField self x y ;;
            b <- HexBoard__getField other x y ;;
            if Field_ne a b
            then a' <- HexBoard__getField self x y ;; Ok (fields ++ [a'])
            else Ok fields)
         fields)
    [].

(** [HexBoard.__eq__] hands back what [compareTo] returns. *)
Definition HexBoard_eq (self other : HexBoard) : res (list Field) :=
  HexBoard_compareTo self other.

(** *** class Board *)

Record Board : Type := mkBoard { hexFields : HexBoard }.

(** The loop of [getMovesInDirection]: [try: moves.append(...)] with
    [except IndexError: break]. *)
Fixpoint try_append_or_break (body : Z -> res Move) (l : list Z) (moves : list Move)
  : res (list Move) :=
  match l with
  | [] => Ok moves
  | i :: l' =>
      match body i with
      | Ok m => try_append_or_break body l' (moves ++ [m])
      | Raise IndexError => Ok moves
      | Raise e => Raise e
      end
  end.

Definition getMovesInDirection (self : Board) (origin : Coordinates) (direction : Vector)
  : res (list Move) :=
  try_append_or_break
    (fun i => Ok (Move_init (addVector (getDoubleHex origin) (Vector_times direction i))
                            (Some origin)))
    (range2 1 (width (hexFields self)))
    [].

Definition Board__isDirectionValid (self : Board) (field : Coordinates) : res bool :=
  let arrayCoordinate := getArray field in
  v <- HexBoard_isValid (hexFields self) arrayCoordinate ;;
  if v then
    o <- HexBoard_isOccupied (hexFields self) arrayCoordinate ;;
    if negb o then
      f <- getField (hexFields self) arrayCoordinate ;; Ok (negb (Field_isEmpty f))
    else Ok false
  else Ok false.

Definition possibleMovesFrom (self : Board) (position : Coordinates) : res (list Move) :=
  v <- HexBoard_isValid (hexFields self) position ;;
  if negb v then Raise IndexError
  else
    for_ DIRECTIONS
      (fun moves direction =>
         ms <- getMovesInDirection self position direction ;; Ok (moves ++ ms))
      [].

Definition getPenguins (self : Board) : res (list Field) :=
  fs <- getAllFields (hexFields self) ;; Ok (filter Field_isOccupied fs).

(** [currentField.isOccupied() and currentField.getPenguin().team() == team] *)
Definition occupied_by (currentField : Field) (team : Team) : bool :=
  Field_isOccupied currentField
  && match Field_getPenguin currentField with
     | Some t => Team_eq t team
     | None => false
     end.

Definition getTeamsPenguins (self : Board) (team : Team) : res (list Coordinates) :=
  for_ (range (width (hexFields self)))
    (fun teamsPenguins x =>
       h <- height (hexFields self) ;;
       for_ (range h)
         (fun teamsPenguins y =>
            currentField <- getField (hexFields self) (mkCoordinates x y false) ;;
            if occupied_by currentField team
            then Ok (teamsPenguins ++ [getDoubleHex (mkCoordinates x y false)])
            else Ok teamsPenguins)
         teamsPenguins)
    [].

(** *** class Fishes *)

Record Fishes : Type := mkFishes { fishesOne : Z; fishesTwo : Z }.

(** *** class GameState *)

Record GameState : Type := mkGameState {
  startTeam : Team;
  board : Board;
  turn : Z;
  round : Z;
  currentTeam : Team;
  otherTeam : Team;
  lastMove : option Move;
  fishes : Fishes;
  currentPieces : list Coordinates
}.

(** Body of [currentTeamFromTurn], which only reads [startTeam] and [turn]. *)
Definition currentTeamFromTurn_of (startTeam : Team) (turn : Z) : res Team :=
  if turn mod 2 =? 0 then Ok startTeam else Team_opponent startTeam.

Definition currentTeamFromTurn (self : GameState) : res Team :=
  currentTeamFromTurn_of (startTeam self) (turn self).

Definition GameState_init (board : Board) (turn : Z) (startTeam : Team)
    (fishes : Fishes) (lastMove : option Move) : res GameState :=
  let round := Py.int_half (turn + 1) in
  currentTeam <- currentTeamFromTurn_of startTeam turn ;;
  current' <- currentTeamFromTurn_of startTeam turn ;;
  otherTeam <- Team_opponent current' ;;
  currentPieces <- getTeamsPenguins board currentTeam ;;
  Ok (mkGameState startTeam board turn round currentTeam otherTeam
                  lastMove fishes currentPieces).

Definition getPossibleMoves (self : GameState) : res (list Move) :=
  if len (currentPieces self) <? 4 then
    let hexBoard := hexFields (board self) in
    for_ (range (width hexBoard - 1))
      (fun moves x =>
         h <- height hexBoard ;;
         for_ (range (h - 1))
           (fun moves y =>
              field <- getField hexBoard (mkCoordinates x y false) ;;
              if negb (Field_isOccupied field)
                 && match Field_getFish field with Some n => n =? 1 | None => false end
              then Ok (moves ++ [Move_init (getDoubleHex (mkCoordinates x y false)) None])
              else Ok moves)
           moves)
      []
  else
    for_ (currentPieces self)
      (fun moves piece =>
         ms <- possibleMovesFrom (board self) piece ;; Ok (moves ++ ms))
      [].

(** ** Plugin2023.py: further methods *)

(** *** class Move

    [getDelta] is [self.toCoo.getDistance(self.fromCoo)]: on a move without
    origin, [getDistance] calls [None.getVector()] and raises
    [AttributeError], given here as [None]. *)
Definition Move_getDelta (self : Move) : option Coordinates :=
  match fromCoo self with
  | Some origin => Some (getDistance (toCoo self) origin)
  | None => None
  end.

(** [reversed] is [Move(self.fromCoo, self.toCoo)]: the origin becomes the
    destination.  The constructor reads [toCoo.x], so on a move without
    origin it raises [AttributeError], given here as [None]. *)
Definition Move_reversed (self : Move) : option Move :=
  match fromCoo self with
  | Some origin => Some (Move_init origin (Some (toCoo self)))
  | None => None
  end.

(** *** class HexBoard *)

(** The inner and the outer loop of [areFieldsEmpty], each leaving with
    [False] at the first field that is not empty. *)
Fixpoint areFieldsEmpty_row (row : list Field) : bool :=
  match row with
  | [] => true
  | field :: rest =>
      if negb (Field_isEmpty field) then false else areFieldsEmpty_row rest
  end.

Fixpoint areFieldsEmpty_rows (rows : list (list Field)) : bool :=
  match rows with
  | [] => true
  | row :: rest =>
      if areFieldsEmpty_row row then areFieldsEmpty_rows rest else false
  end.

Definition areFieldsEmpty (self : HexBoard) : bool :=
  areFieldsEmpty_rows (gameField self).

(** [field in row]: list membership tests [e is field or e == field], and
    [==] on fields is identity. *)
Fixpoint Field_in (field : Field) (row : list Field) : bool :=
  match row with
  | [] => false
  | e :: rest => if Nat.eqb (oid e) (oid field) then true else Field_in field rest
  end.

Fixpoint contains_rows (rows : list (list Field)) (field : Field) : bool :=
  match rows with
  | [] => false
  | row :: rest => if Field_in field row then true else contains_rows rest field
  end.

Definition HexBoard_contains (self : HexBoard) (field : Field) : bool :=
  contains_rows (gameField self) field.

Fixpoint HexBoard_containsAll (self : HexBoard) (fields : list Field) : bool :=
  match fields with
  | [] => true
  | field :: rest =>
      if negb (HexBoard_contains self field) then false
      else HexBoard_containsAll self rest
  end.

(** ** game_client.py *)

(** Packets of [socha.api.protocol.protocol], as far as the client looks at
    them: the class of the packet, its [room_id], and the class of
    [data.class_binding]. *)

Section GameClient.

(** Types of the protocol and plugin packages that the client only passes
    through. *)
Context {StateT ResultT DataT MoveT GameStateT : Type}.

Inductive ClassBinding : Type :=
| MoveRequest
| State (s : StateT)
| Result (r : ResultT)
| OtherData (d : DataT).

(** Inbound packets. *)
Inductive ProtocolPacket : Type :=
| Errorpacket (message : string)
| Joined (room_id : string)
| Left (room_id : string)
| Room (room_id : string) (data : ClassBinding).

(** Outbound packets. *)
Inductive Outbound : Type :=
| Join
| JoinRoom (room_id : string)
| JoinPrepared (reservation_code : string)
| RoomMessage (room_id : string) (message : DataT).

(** What [self._receive()] hands to the loop. *)
Inductive Response : Type :=
| NoResponse
| Packet (p : ProtocolPacket)
| UnknownObject.

(** Entries of [IClientHandler.history]. *)
Inductive HistoryItem : Type :=
| HGameState (g : GameStateT)
| HResult (r : ResultT).

(** The callbacks of [IClientHandler], each acting on the state [H] of the
    handler object; [calculate_move] also returns the move, [None] when
    there is none. *)
Class IClientHandler (H : Type) : Type := {
  calculate_move : H -> option MoveT * H;
  on_update : GameStateT -> H -> H;
  on_game_over : ResultT -> H -> H;
  on_error : string -> H -> H;
  on_room_message : ClassBinding -> H -> H;
  on_game_joined : string -> H -> H;
  on_game_left : H -> H;
  while_disconnected : H -> H
}.

Inductive HandlerCall : Type :=
| call_calculate_move
| call_on_update
| call_on_game_over
| call_on_error (logMessage : string)
| call_on_room_message
| call_on_game_joined (room_id : string)
| call_on_game_left
| call_while_disconnected.

(** Effects visible outside the client, in the order they happen. *)
Inductive Event : Type :=
| Logged (level msg : string)
| Called (c : HandlerCall)
| Sent (p : Outbound)
| Connect
| Disconnect
| Slept (seconds : Z)
| GcCollect.

Context {H : Type} `{IClientHandler H}.

Record GameClient : Type := mkGameClient {
  _game_handler : H;
  history : list (list HistoryItem);
  reservation : string;
  room_id : string;
  auto_reconnect : bool;
  survive : bool;
  running : bool;
  first_time : bool;
  connected : bool;           (* network_interface.connected *)
  connects : nat;             (* calls of connect() so far *)
  trace : list Event
}.

Definition emit (e : Event) (c : GameClient) : GameClient :=
  mkGameClient (_game_handler c) (history c) (reservation c) (room_id c)
    (auto_reconnect c) (survive c) (running c) (first_time c) (connected c)
    (connects c) (trace c ++ [e]).

Definition set_handler (h : H) (c : GameClient) : GameClient :=
  mkGameClient h (history c) (reservation c) (room_id c)
    (auto_reconnect c) (survive c) (running c) (first_time c) (connected c)
    (connects c) (trace c).

Definition set_history (hs : list (list HistoryItem)) (c : GameClient) : GameClient :=
  mkGameClient (_game_handler c) hs (reservation c) (room_id c)
    (auto_reconnect c) (survive c) (running c) (first_time c) (connected c)
    (connects c) (trace c).

Definition set_running (b : bool) (c : GameClient) : GameClient :=
  mkGameClient (_game_handler c) (history c) (reservation c) (room_id c)
    (auto_reconnect c) (survive c) b (first_time c) (connected c)
    (connects c) (trace c).

Definition set_first_time (b : bool) (c : GameClient) : GameClient :=
  mkGameClient (_game_handler c) (history c) (reservation c) (room_id c)
    (auto_reconnect c) (survive c) (running c) b (connected c)
    (connects c) (trace c).

Definition set_connected (b : bool) (c : GameClient) : GameClient :=
  mkGameClient (_game_handler c) (history c) (reservation c) (room_id c)
    (auto_reconnect c) (survive c) (running c) (first_time c) b
    (connects c) (trace c).

Definition count_connect (c : GameClient) : GameClient :=
  mkGameClient (_game_handler c) (history c) (reservation c) (room_id c)
    (auto_reconnect c) (survive c) (running c) (first_time c) (connected c)
    (S (connects c)) (trace c).

(** [handler.callback(...)], recorded in the trace. *)
Definition notify (k : HandlerCall) (f : H -> H) (c : GameClient) : GameClient :=
  set_handler (f (_game_handler c)) (emit (Called k) c).

(** *** The transport ([XMLProtocolInterface], outside [src/]) *)

(** How one call of [connect()] can end: the connection is up, the call
    returns with the connection still down, or it raises. *)
Inductive ConnectOutcome : Type := Connects | StaysDown | Fails.

(** The environment: the outcome of the n-th call of [connect()]. *)
Variable connect_script : nat -> ConnectOutcome.

(** Conversions that the client takes from other modules. *)
Variable str_packet : ProtocolPacket -> string.
Variable handle_move : MoveT -> DataT.
Variable if_last_game_state : ProtocolPacket -> GameStateT -> GameStateT.
Variable if_not_last_game_state : ProtocolPacket -> GameStateT.

(** Modelled from the spec: [XMLProtocolInterface.connect] is not under
    [src/]; a reconnection attempt either succeeds, leaves the client
    unconnected, or raises a transport error.  The result is [true] when
    the call raised. *)
Definition connect (c : GameClient) : bool * GameClient :=
  let c' := count_connect (emit Connect c) in
  match connect_script (connects c) with
  | Connects => (false, set_connected true c')
  | StaysDown => (false, c')
  | Fails => (true, c')
  end.

(** Modelled from the spec: [XMLProtocolInterface.disconnect] is not under
    [src/]; it closes the transport, after which the client is not
    connected. *)
Definition disconnect (c : GameClient) : GameClient :=
  set_connected false (emit Disconnect c).

(** Modelled from the spec: [XMLProtocolInterface._send] is not under
    [src/]; it hands one outbound packet to the transport. *)
Definition _send (p : Outbound) (c : GameClient) : GameClient :=
  emit (Sent p) c.

(** *** class GameClient *)

Definition join_game (c : GameClient) : GameClient := _send Join c.

Definition join_game_room (room_id : string) (c : GameClient) : GameClient :=
  _send (JoinRoom room_id) c.

Definition join_game_with_reservation (reservation : string) (c : GameClient)
  : GameClient :=
  _send (JoinPrepared reservation) c.

Definition send_message_to_room (room_id : string) (message : DataT)
    (c : GameClient) : GameClient :=
  _send (RoomMessage room_id message) c.

Definition stop (c : GameClient) : GameClient :=
  let c := emit (Logged "INFO" "Shutting down...") c in
  let c := if connected c then disconnect c else c in
  set_running false c.

(** Truth value of a string: empty is falsy. *)
Definition nonempty (s : string) : bool :=
  match s with EmptyString => false | _ => true end.

Definition join (c : GameClient) : GameClient :=
  let c :=
    if nonempty (reservation c) then join_game_with_reservation (reservation c) c
    else if nonempty (room_id c) then join_game_room (room_id c) c
    else join_game c in
  let c := set_first_time false c in
  set_history (history c ++ [[]]) c.

(** [self._game_handler.history[-1].append(item)] *)
Definition history_append (item : HistoryItem) (c : GameClient) : res GameClient :=
  match rev (history c) with
  | [] => Raise IndexError
  | last :: front => Ok (set_history (rev front ++ [last ++ [item]]) c)
  end.

Definition _on_move_request (room_id : string) (c : GameClient) : GameClient :=
  let (move_response, h) := calculate_move (_game_handler c) in
  let c := set_handler h (emit (Called call_calculate_move) c) in
  match move_response with
  | Some m =>
      let response := handle_move m in
      let c := emit (Logged "INFO" "Sent move") c in
      send_message_to_room room_id response c
  | None => emit (Logged "ERROR" "not a valid move") c
  end.

(** The newest [GameState] of a history slot, scanning it backwards. *)
Fixpoint last_game_state_of (items : list HistoryItem) : option GameStateT :=
  match items with
  | [] => None
  | HGameState g :: _ => Some g
  | _ :: rest => last_game_state_of rest
  end.

Definition _on_state (message : ProtocolPacket) (c : GameClient) : res GameClient :=
  match rev (history c) with
  | [] => Raise IndexError
  | last :: _ =>
      let _game_state :=
        match last_game_state_of (rev last) with
        | Some last_game_state => if_last_game_state message last_game_state
        | None => if_not_last_game_state message
        end in
      c <- history_append (HGameState _game_state) c ;;
      Ok (notify call_on_update (on_update _game_state) c)
  end.

Definition _on_object (message : ProtocolPacket) (c : GameClient) : res GameClient :=
  match message with
  | Errorpacket _ =>
      let c := emit (Logged "ERROR"
                 ("An error occurred while handling the request: " ++ str_packet message)) c in
      let c := notify (call_on_error (str_packet message))
                      (on_error (str_packet message)) c in
      Ok (stop c)
  | Joined room_id => Ok (notify (call_on_game_joined room_id) (on_game_joined room_id) c)
  | Left _ => Ok (notify call_on_game_left on_game_left c)
  | Room room_id MoveRequest => Ok (_on_move_request room_id c)
  | Room _ (State _) => _on_state message c
  | Room _ (Result r) =>
      c <- history_append (HResult r) c ;;
      Ok (notify call_on_game_over (on_game_over r) c)
  | Room _ (OtherData d) =>
      Ok (notify call_on_room_message (on_room_message (OtherData d)) c)
  end.

(** The [for _ in range(3)] loop of [_handle_left], with [n] rounds left. *)
Fixpoint reconnect_attempts (n : nat) (c : GameClient) : GameClient :=
  match n with
  | O => c
  | S n' =>
      let c := emit (Logged "INFO" "Try to establish a connection with the server...") c in
      let (raised, c) := connect c in
      if raised then
        let c := emit (Logged "ERROR" "exception") c in
        let c := emit (Logged "INFO"
                   "The client couldn't reconnect due to a previous error.") c in
        let c := stop c in
        reconnect_attempts n' (emit (Slept 1) c)
      else if connected c then
        emit (Logged "INFO" "Reconnected to server.") c
      else
        reconnect_attempts n' (emit (Slept 1) c)
  end.

(** The record logged in survive mode; the text has two lines. *)
Definition survive_notice : string :=
  "The server left. Client is in survive mode and keeps running."
  ++ String (Ascii.ascii_of_nat 10) "Please shutdown the client manually.".

Definition _handle_left (c : GameClient) : GameClient :=
  let c := set_first_time true c in
  let c := disconnect c in
  let c :=
    if survive c then
      let c := emit (Logged "INFO" survive_notice) c in
      notify call_while_disconnected while_disconnected c
    else c in
  if auto_reconnect c then
    let c := emit (Logged "INFO" "The server left. Client tries to reconnect to the server.") c in
    let c := reconnect_attempts 3 c in
    join c
  else
    let c := emit (Logged "INFO" "The server left.") c in
    stop c.

(** One round of the [while self.running] loop of [_client_loop], given
    what [_receive()] returns when the client is connected. *)
Definition _client_loop_body (response : Response) (c : GameClient) : res GameClient :=
  if connected c then
    match response with
    | NoResponse => Ok c
    | Packet p =>
        let c := emit (Logged "DEBUG" "Received new object") c in
        c <- match p with
             | Left _ => Ok (_handle_left (notify call_on_game_left on_game_left c))
             | _ => _on_object p c
             end ;;
        Ok (emit GcCollect c)
    | UnknownObject =>
        if running c then Raise (NotImplementedError "Received object of unknown class.")
        else Ok c
    end
  else Ok (notify call_while_disconnected while_disconnected c).

End GameClient.

(** The handler whose callbacks do nothing, as the methods of the class
    [IClientHandler] itself; all payload types are trivial. *)
#[export] Instance base_handler : @IClientHandler unit unit unit unit unit unit := {|
  calculate_move := fun h => (None, h);
  on_update := fun _ h => h;
  on_game_over := fun _ h => h;
  on_error := fun _ h => h;
  on_room_message := fun _ h => h;
  on_game_joined := fun _ h => h;
  on_game_left := fun h => h;
  while_disconnected := fun h => h
|}.

(** A running, connected client set to reconnect (not to survive), joined
    without reservation or room id, at the moment the server leaves. *)
Definition reconnecting_client : @GameClient unit unit unit unit :=
  mkGameClient tt [[]] "" "" true false true false true 0 [].

(** Environments: the server never comes back; it comes back at the second
    attempt; every attempt raises; the first attempt raises and the server
    never comes back. *)
Definition never_up : nat -> ConnectOutcome := fun _ => StaysDown.

Definition up_on_second : nat -> ConnectOutcome :=
  fun n => match n with 1%nat => Connects | _ => StaysDown end.

Definition always_raises : nat -> ConnectOutcome := fun _ => Fails.

Definition raises_first : nat -> ConnectOutcome :=
  fun n => match n with O => Fails | _ => StaysDown end.

(** ** Well-formed boards *)

(** A board of width [W] and height [H]: [W] rows, the first of which
    exists, all of length [H] (the grid is rectangular). *)
Definition rectangularb (b : HexBoard) (W H : Z) : bool :=
  (width b =? W)
  && match gameField b with
     | [] => false
     | row0 :: _ => len row0 =? H
     end
  && forallb (fun row => len row =? H) (gameField b).

Definition rectangular (b : HexBoard) (W H : Z) : Prop := rectangularb b W H = true.

(** The cell in row-list [x], position [y], when it exists. *)
Definition cell (b : HexBoard) (x y : Z) : option Field :=
  match nth_error (gameField b) (Z.to_nat x) with
  | Some row => nth_error row (Z.to_nat y)
  | None => None
  end.

(** The bounds test [0 <= x < W and 0 <= y < H] on an array coordinate. *)
Definition in_bounds (W H : Z) (a : Coordinates) : bool :=
  (0 <=? x a) && (x a <? W) && ((0 <=? y a) && (y a <? H)).

(** A 2x2 board of one-fish cells. *)
Definition board2x2 : HexBoard :=
  mkHexBoard [ [mkField 0 (FInt 1); mkField 1 (FInt 1)];
               [mkField 2 (FInt 1); mkField 3 (FInt 1)] ].

(** A 2x2 board on which team ONE has a penguin on every cell. *)
Definition board_crowded : HexBoard :=
  mkHexBoard [ [mkField 0 (FTeam (mkTeam ONE)); mkField 1 (FTeam (mkTeam ONE))];
               [mkField 2 (FTeam (mkTeam ONE)); mkField 3 (FTeam (mkTeam ONE))] ].

(** A board without rows, and a board whose second row is shorter than
    its first. *)
Definition board_empty : HexBoard := mkHexBoard [].

Definition board_ragged : HexBoard := mkHexBoard [ [mkField 0 (FInt 1)]; [] ].

(** One row that has no cells: width 1, height 0. *)
Definition board1x0 : HexBoard := mkHexBoard [ [] ].

(** Two rows of one cell each: width 2, height 1. *)
Definition board2x1 : HexBoard :=
  mkHexBoard [ [mkField 0 (FInt 1)]; [mkField 1 (FInt 2)] ].

(** What the scans and the ray casts compute on a board of width [W] and
    height [H], written as list expressions over the cells. *)

Definition penguins_scan (hb : HexBoard) (W H : Z) (team : Team) : list Coordinates :=
  flat_map
    (fun i => flat_map
                (fun j => match cell hb i j with
                          | Some f => if occupied_by f team
                                      then [getDoubleHex (mkCoordinates i j false)]
                                      else []
                          | None => []
                          end)
                (range H))
    (range W).

Definition free_with_one_fish (f : Field) : bool :=
  negb (Field_isOccupied f)
  && match Field_getFish f with Some n => n =? 1 | None => false end.

Definition placement_scan (hb : HexBoard) (W H : Z) : list Move :=
  flat_map
    (fun i => flat_map
                (fun j => match cell hb i j with
                          | Some f => if free_with_one_fish f
                                      then [Move_init (getDoubleHex (mkCoordinates i j false)) None]
                                      else []
                          | None => []
                          end)
                (range (H - 1)))
    (range (W - 1)).

Definition ray (W : Z) (origin : Coordinates) (direction : Vector) : list Move :=
  map (fun i => Move_init (addVector (getDoubleHex origin) (Vector_times direction i))
                          (Some origin))
      (range2 1 W).

Definition rays (W : Z) (origin : Coordinates) : list Move :=
  flat_map (ray W origin) DIRECTIONS.

(** The cells of [self] that [compareTo] collects against [other]. *)
Definition diff_scan (self other : HexBoard) (W H : Z) : list Field :=
  flat_map
    (fun i => flat_map
                (fun j => match cell self i j, cell other i j with
                          | Some a, Some c => if Field_ne a c then [a] else []
                          | _, _ => []
                          end)
                (range H))
    (range W).

(** The fields of [board2x2] as new objects: same contents, other
    identities. *)
Definition board2x2_copy : HexBoard :=
  mkHexBoard [ [mkField 10 (FInt 1); mkField 11 (FInt 1)];
               [mkField 12 (FInt 1); mkField 13 (FInt 1)] ].

(** The other team. *)
Definition other_enum (e : TeamEnum) : TeamEnum :=
  match e with ONE => TWO | TWO => ONE end.

(** ** Auxiliary facts: ranges, indexing, loops *)

Lemma in_range2 (a b i : Z) : In i (range2 a b) <-> a <= i < b.
Proof.
  unfold range2. rewrite in_map_iff. split.
  - intros [k [E Hk]]. apply in_seq in Hk. lia.
  - intros Hi. exists (Z.to_nat (i - a)). split; [lia|].
    apply in_seq. lia.
Qed.

Lemma in_range (n i : Z) : In i (range n) <-> 0 <= i < n.
Proof. apply in_range2. Qed.

Lemma range2_nonpos (a b : Z) : b <= a -> range2 a b = [].
Proof.
  intros Hab. unfold range2. replace (Z.to_nat (b - a)) with O by lia. reflexivity.
Qed.

Lemma len_nonneg {A} (l : list A) : 0 <= len l.
Proof. unfold len. lia. Qed.

Lemma getitem_ok {A} (l : list A) (i : Z) :
  0 <= i < len l ->
  exists a, getitem l i = Ok a /\ nth_error l (Z.to_nat i) = Some a.
Proof.
  intros Hi. unfold getitem.
  destruct (i <? 0) eqn:E1; [apply Z.ltb_lt in E1; lia|].
  rewrite E1.
  destruct (nth_error l (Z.to_nat i)) as [a|] eqn:E2.
  - exists a. split; reflexivity.
  - apply nth_error_None in E2. unfold len in Hi. lia.
Qed.

Lemma getitem_nth_error {A} (l : list A) (i : Z) (a : A) :
  0 <= i -> nth_error l (Z.to_nat i) = Some a -> getitem l i = Ok a.
Proof.
  intros Hi E. unfold getitem.
  destruct (i <? 0) eqn:E1; [apply Z.ltb_lt in E1; lia|].
  rewrite E1, E. reflexivity.
Qed.

Lemma getitem_out {A} (l : list A) (i : Z) :
  len l <= i -> getitem l i = Raise IndexError.
Proof.
  intros Hi. unfold getitem. pose proof (len_nonneg l) as Hl.
  destruct (i <? 0) eqn:E1; [apply Z.ltb_lt in E1; lia|].
  rewrite E1.
  destruct (nth_error l (Z.to_nat i)) eqn:E2; [|reflexivity].
  assert (Hlt : (Z.to_nat i < List.length l)%nat)
    by (apply nth_error_Some; congruence).
  unfold len in Hi. lia.
Qed.

Lemma bind_Ok {A B} (a : A) (k : A -> res B) : Py.bind (Ok a) k = k a.
Proof. reflexivity. Qed.

(** A loop whose body only appends to the accumulator computes a
    [flat_map]. *)
Lemma for__flat_map {A B} (l : list A) (body : list B -> A -> res (list B))
    (g : A -> list B) :
  (forall s a, In a l -> body s a = Ok (s ++ g a)) ->
  forall s, for_ l body s = Ok (s ++ flat_map g l).
Proof.
  induction l as [|a l IH]; intros Hb s; simpl.
  - rewrite app_nil_r. reflexivity.
  - rewrite (Hb s a) by (left; reflexivity). simpl.
    rewrite IH by (intros; apply Hb; right; assumption).
    rewrite app_assoc. reflexivity.
Qed.

Lemma for__flat_map_nil {A B} (l : list A) (body : list B -> A -> res (list B))
    (g : A -> list B) :
  (forall s a, In a l -> body s a = Ok (s ++ g a)) ->
  for_ l body [] = Ok (flat_map g l).
Proof. intros Hb. rewrite (for__flat_map l body g Hb). reflexivity. Qed.

Lemma comprehension_map {A B} (f : A -> res B) (g : A -> B) (l : list A) :
  (forall a, In a l -> f a = Ok (g a)) -> comprehension f l = Ok (map g l).
Proof.
  induction l as [|a l IH]; intros Hf; simpl; [reflexivity|].
  rewrite Hf by (left; reflexivity). simpl.
  rewrite IH by (intros; apply Hf; right; assumption). reflexivity.
Qed.

(** A comprehension whose elements can only fail with [e], and one of
    which does, fails with [e]. *)
Lemma comprehension_raise {A B} (f : A -> res B) (e : exn) (l : list A) :
  (forall a, In a l -> f a = Raise e \/ exists b, f a = Ok b) ->
  (exists a, In a l /\ f a = Raise e) ->
  comprehension f l = Raise e.
Proof.
  induction l as [|a l IH]; intros Hall [a0 [Hin Ha0]]; simpl.
  - contradiction.
  - destruct (Hall a (or_introl eq_refl)) as [Hr | [b Hb]].
    + rewrite Hr. reflexivity.
    + rewrite Hb. simpl.
      destruct Hin as [-> | Hin]; [congruence|].
      rewrite IH; [reflexivity | intros; apply Hall; right; assumption | eauto].
Qed.

(** ** Auxiliary facts: boards *)

Lemma rectangular_inv (b : HexBoard) (W H : Z) :
  rectangular b W H ->
  width b = W /\ height b = Ok H /\ 0 < W /\ 0 <= H
  /\ Forall (fun row => len row = H) (gameField b)
  /\ exists row0, getitem (gameField b) 0 = Ok row0 /\ len row0 = H.
Proof.
  unfold rectangular, rectangularb, height, width. intros Hr.
  apply andb_prop in Hr. destruct Hr as [Hr Hall].
  apply andb_prop in Hr. destruct Hr as [Hw H0].
  apply Z.eqb_eq in Hw.
  destruct (gameField b) as [|row0 rows] eqn:Eg; [discriminate|].
  apply Z.eqb_eq in H0.
  assert (HF : Forall (fun row => len row = H) (row0 :: rows)).
  { apply Forall_forall. intros r Hin.
    rewrite forallb_forall in Hall. apply Z.eqb_eq. apply Hall. exact Hin. }
  repeat split.
  - exact Hw.
  - unfold getitem. simpl. rewrite H0. reflexivity.
  - subst W. unfold len. simpl. lia.
  - subst H. apply len_nonneg.
  - exact HF.
  - exists row0. split; [reflexivity | exact H0].
Qed.

Lemma getArray_array (c : Coordinates) : isDouble c = false -> getArray c = c.
Proof. intros E. unfold getArray. rewrite E. reflexivity. Qed.

Lemma getArray_idem (c : Coordinates) : getArray (getArray c) = getArray c.
Proof. destruct c as [cx cy [|]]; reflexivity. Qed.

Lemma isValid_rect (b : HexBoard) (W H : Z) (c : Coordinates) :
  rectangular b W H ->
  HexBoard_isValid b c = Ok (in_bounds W H (getArray c)).
Proof.
  intros Hr. apply rectangular_inv in Hr.
  destruct Hr as (Hw & _ & _ & _ & _ & row0 & Hrow0 & Hlen).
  unfold HexBoard_isValid, in_bounds. unfold width in Hw. rewrite Hw, Hrow0.
  simpl. rewrite Hlen.
  destruct ((0 <=? x (getArray c)) && (x (getArray c) <? W)); reflexivity.
Qed.

Lemma in_bounds_iff (W H : Z) (a : Coordinates) :
  in_bounds W H a = true <-> (0 <= x a < W /\ 0 <= y a < H).
Proof.
  unfold in_bounds. rewrite !andb_true_iff, !Z.leb_le, !Z.ltb_lt. lia.
Qed.

Lemma getField_rect_cell (b : HexBoard) (W H : Z) (i j : Z) :
  rectangular b W H -> 0 <= i < W -> 0 <= j < H ->
  exists f, HexBoard__getField b i j = Ok f /\ cell b i j = Some f.
Proof.
  intros Hr Hi Hj. apply rectangular_inv in Hr.
  destruct Hr as (Hw & _ & _ & _ & HF & _).
  unfold HexBoard__getField, cell. unfold width in Hw.
  destruct (getitem_ok (gameField b) i) as [row [E1 E2]]; [lia|].
  rewrite E1, E2. simpl.
  assert (Hrow : len row = H).
  { rewrite Forall_forall in HF. apply HF. eapply nth_error_In; eauto. }
  destruct (getitem_ok row j) as [f [E3 E4]]; [lia|].
  exists f. split; assumption.
Qed.

Lemma getField_rect_valid (b : HexBoard) (W H : Z) (c : Coordinates) :
  rectangular b W H -> in_bounds W H (getArray c) = true ->
  exists f, getField b c = Ok f
            /\ HexBoard__getField b (x (getArray c)) (y (getArray c)) = Ok f.
Proof.
  intros Hr Hv. unfold getField.
  rewrite (isValid_rect b W H) by assumption.
  rewrite getArray_idem, Hv. simpl.
  apply in_bounds_iff in Hv.
  destruct (getField_rect_cell b W H _ _ Hr (proj1 Hv) (proj2 Hv)) as [f [E _]].
  exists f. split; assumption.
Qed.

Lemma getField_rect_invalid (b : HexBoard) (W H : Z) (c : Coordinates) :
  rectangular b W H -> in_bounds W H (getArray c) = false ->
  getField b c = Raise IndexError.
Proof.
  intros Hr Hv. unfold getField.
  rewrite (isValid_rect b W H) by assumption.
  rewrite getArray_idem, Hv. reflexivity.
Qed.

(** ** Coordinates *)

Lemma row_offset_cases (c : Coordinates) : row_offset c = 0 \/ row_offset c = 1.
Proof. unfold row_offset. destruct (y c mod 2 =? 1); auto. Qed.

Lemma int_half_double (n : Z) : Py.int_half (n * 2) = n.
Proof. unfold Py.int_half. apply Z.quot_mul. lia. Qed.

Lemma int_half_odd (n : Z) : 0 <= n -> Py.int_half (n * 2 + 1) = n.
Proof.
  intros Hn. unfold Py.int_half. rewrite Z.quot_div_nonneg by lia.
  symmetry. apply Z.div_unique with 1; lia.
Qed.

(** On even rows the two conversions are inverse to each other. *)
Lemma roundtrip_even_row (cx cy : Z) :
  cy mod 2 <> 1 ->
  doubleHexToArray (arrayToDoubleHex (mkCoordinates cx cy false))
  = mkCoordinates cx cy false.
Proof.
  intros Hy. unfold doubleHexToArray, arrayToDoubleHex, row_offset. cbn [x y].
  destruct (cy mod 2 =? 1) eqn:E; [apply Z.eqb_eq in E; contradiction|].
  f_equal. replace (cx * 2 + 0 - 2 * 0) with (cx * 2) by lia.
  apply int_half_double.
Qed.

(** On odd rows the way back lands one column to the left, from column 1
    on. *)
Lemma roundtrip_odd_row (cx cy : Z) :
  cy mod 2 = 1 -> 1 <= cx ->
  doubleHexToArray (arrayToDoubleHex (mkCoordinates cx cy false))
  = mkCoordinates (cx - 1) cy false.
Proof.
  intros Hy Hx. unfold doubleHexToArray, arrayToDoubleHex, row_offset. cbn [x y].
  rewrite Hy. change (1 =? 1) with true. cbv iota.
  f_equal. replace (cx * 2 + 1 - 2 * 1) with ((cx - 1) * 2 + 1) by lia.
  apply int_half_odd. lia.
Qed.

(** The array column computed for the double-hex form of an array
    coordinate never leaves [[0, cx]]. *)
Lemma roundtrip_column_bounds (cx cy : Z) :
  0 <= cx ->
  let a := doubleHexToArray (arrayToDoubleHex (mkCoordinates cx cy false)) in
  0 <= x a <= cx /\ y a = cy.
Proof.
  intros Hx. destruct (Z.eq_dec (cy mod 2) 1) as [Hy | Hy].
  - destruct (Z.eq_dec cx 0) as [-> | Hne].
    + cbv zeta. unfold doubleHexToArray, arrayToDoubleHex, row_offset.
      cbn [x y]. rewrite Hy. vm_compute. repeat split; discriminate.
    + cbv zeta. rewrite roundtrip_odd_row by lia. cbn [x y]. lia.
  - cbv zeta. rewrite roundtrip_even_row by assumption. cbn [x y]. lia.
Qed.

Lemma addVector_keeps_tag (c : Coordinates) (v : Vector) :
  isDouble (addVector c v) = isDouble c.
Proof. unfold addVector. destruct (isDouble c); reflexivity. Qed.

Lemma minusVector_is_double (c : Coordinates) (v : Vector) :
  isDouble (minusVector c v) = true.
Proof. reflexivity. Qed.

(** C1 (defect in [doubleHexToArray]): the conversions are not inverse to
    each other.  On the 2x2 board the array coordinate (1, 1) is valid, its
    double-hex form is (3, 1), and converting that back gives (0, 1); the
    double-hex coordinate (3, 1) comes back as (1, 1). *)
Theorem C1_roundtrip_fails_on_odd_row :
  HexBoard_isValid board2x2 (mkCoordinates 1 1 false) = Ok true
  /\ arrayToDoubleHex (mkCoordinates 1 1 false) = mkCoordinates 3 1 true
  /\ doubleHexToArray (arrayToDoubleHex (mkCoordinates 1 1 false))
     = mkCoordinates 0 1 false
  /\ arrayToDoubleHex (doubleHexToArray (mkCoordinates 3 1 true))
     = mkCoordinates 1 1 true.
Proof. repeat split. Qed.

(** C4 (defect in [minusVector]): [addVector] hands back a coordinate with
    the tag of its receiver, while [minusVector] always hands back a
    double-hex tagged coordinate computed from the raw x and y; so the
    array coordinate (1, 0) minus the zero vector is tagged double-hex.
    On odd rows the way back to array form inside [addVector] moves one
    column to the left: array (1, 1) plus the zero vector is array (0, 1). *)
Theorem C4_minusVector_loses_array_tag :
  (forall c v, isDouble (addVector c v) = isDouble c)
  /\ (forall c v, isDouble (minusVector c v) = true)
  /\ minusVector (mkCoordinates 1 0 false) (mkVector 0 0) = mkCoordinates 1 0 true
  /\ addVector (mkCoordinates 1 0 false) (mkVector 0 0) = mkCoordinates 1 0 false
  /\ addVector (mkCoordinates 1 1 false) (mkVector 0 0) = mkCoordinates 0 1 false.
Proof.
  split; [exact addVector_keeps_tag|].
  split; [exact minusVector_is_double|].
  repeat split.
Qed.

(** ** Ray casting *)

Lemma try_append_all (f : Z -> Move) (l : list Z) (moves : list Move) :
  try_append_or_break (fun i => Ok (f i)) l moves = Ok (moves ++ map f l).
Proof.
  revert moves. induction l as [|i l IH]; intros moves; simpl.
  - rewrite app_nil_r. reflexivity.
  - rewrite IH, <- app_assoc. reflexivity.
Qed.

Lemma getMovesInDirection_all (b : Board) (origin : Coordinates) (direction : Vector) :
  getMovesInDirection b origin direction
  = Ok (map (fun i => Move_init (addVector (getDoubleHex origin)
                                           (Vector_times direction i))
                                (Some origin))
            (range2 1 (width (hexFields b)))).
Proof. unfold getMovesInDirection. rewrite try_append_all. reflexivity. Qed.

(** C2 (defect in [getMovesInDirection]): nothing in the loop body raises,
    so the loop never stops early: it returns one move for every scale from
    1 to width - 1, in range or not.  On the 2x2 board, from (0, 0) to the
    left, the one move returned ends at (-2, 0), which is not on the
    board. *)
Theorem C2_getMovesInDirection_ignores_bounds :
  (forall b origin direction,
      getMovesInDirection b origin direction
      = Ok (map (fun i => Move_init (addVector (getDoubleHex origin)
                                               (Vector_times direction i))
                                    (Some origin))
                (range2 1 (width (hexFields b)))))
  /\ getMovesInDirection (mkBoard board2x2) (mkCoordinates 0 0 true) (mkVector (-2) 0)
     = Ok [mkMove (Some (mkCoordinates 0 0 true)) (mkCoordinates (-2) 0 true)]
  /\ HexBoard_isValid board2x2 (mkCoordinates (-2) 0 true) = Ok false.
Proof.
  split; [exact getMovesInDirection_all|]. split; reflexivity.
Qed.

(** ** Board lookups *)

(** C6 (defect in [doubleHexToArray], the one of C1): the lookups take a
    double-hex coordinate through [getArray], which on odd rows lands one
    column to the left.  On the 2x2 board the array cell (2, 1) is off the
    board and [getField] raises [IndexError] for it; its double-hex form
    (5, 1) passes [isValid], and [getField] and [getFieldOrNone] return the
    cell (1, 1).  The double-hex form (3, 1) of cell (1, 1) reads the cell
    (0, 1). *)
Theorem C6_double_hex_lookup_off_board :
  arrayToDoubleHex (mkCoordinates 2 1 false) = mkCoordinates 5 1 true
  /\ HexBoard_isValid board2x2 (mkCoordinates 2 1 false) = Ok false
  /\ getField board2x2 (mkCoordinates 2 1 false) = Raise IndexError
  /\ getFieldOrNone board2x2 (mkCoordinates 2 1 false) = Ok None
  /\ HexBoard_isValid board2x2 (mkCoordinates 5 1 true) = Ok true
  /\ getField board2x2 (mkCoordinates 5 1 true) = Ok (mkField 3 (FInt 1))
  /\ getFieldOrNone board2x2 (mkCoordinates 5 1 true) = Ok (Some (mkField 3 (FInt 1)))
  /\ cell board2x2 1 1 = Some (mkField 3 (FInt 1))
  /\ arrayToDoubleHex (mkCoordinates 1 1 false) = mkCoordinates 3 1 true
  /\ getField board2x2 (mkCoordinates 3 1 true) = Ok (mkField 1 (FInt 1))
  /\ cell board2x2 0 1 = Some (mkField 1 (FInt 1)).
Proof. repeat split. Qed.

(** A board without rows has no height; every coordinate is invalid on
    it.  The lookups depend on the rows having one length: on a ragged
    board a coordinate can pass the bounds test and still miss its row. *)
Example lookups_outside_rectangular_boards :
  HexBoard_isValid board_empty (mkCoordinates 0 0 false) = Ok false
  /\ getField board_empty (mkCoordinates 0 0 false) = Raise IndexError
  /\ getFieldOrNone board_empty (mkCoordinates 0 0 false) = Ok None
  /\ height board_empty = Raise IndexError
  /\ HexBoard_isValid board_ragged (mkCoordinates 1 0 false) = Ok true
  /\ getFieldOrNone board_ragged (mkCoordinates 1 0 false) = Raise IndexError.
Proof. repeat split. Qed.

(** ** Game states *)

Lemma Team_opponent_ok (t : Team) :
  Team_opponent t = Ok (mkTeam (other_enum (teamEnum t))).
Proof. destruct t as [[|]]; reflexivity. Qed.

Lemma getField_array_cell (hb : HexBoard) (W H i j : Z) :
  rectangular hb W H -> 0 <= i < W -> 0 <= j < H ->
  exists f, getField hb (mkCoordinates i j false) = Ok f /\ cell hb i j = Some f.
Proof.
  intros Hr Hi Hj.
  assert (Hv : in_bounds W H (getArray (mkCoordinates i j false)) = true)
    by (apply in_bounds_iff; simpl; lia).
  destruct (getField_rect_valid hb W H _ Hr Hv) as [f [E1 E2]].
  destruct (getField_rect_cell hb W H i j Hr Hi Hj) as [f' [E3 E4]].
  simpl in E2. exists f. split; [exact E1 | congruence].
Qed.

Lemma getTeamsPenguins_rect (b : Board) (W H : Z) (team : Team) :
  rectangular (hexFields b) W H ->
  getTeamsPenguins b team = Ok (penguins_scan (hexFields b) W H team).
Proof.
  intros Hr. pose proof (rectangular_inv _ _ _ Hr) as (Hw & Hh & _).
  unfold getTeamsPenguins, penguins_scan. rewrite Hw.
  apply for__flat_map_nil. intros s i Hi. rewrite Hh. simpl.
  apply for__flat_map. intros s' j Hj.
  apply in_range in Hi. apply in_range in Hj.
  destruct (getField_array_cell _ W H i j Hr Hi Hj) as [f [E1 E2]].
  rewrite E1, E2. simpl.
  destruct (occupied_by f team); [reflexivity | rewrite app_nil_r; reflexivity].
Qed.

Lemma penguins_scan_valid (hb : HexBoard) (W H : Z) (team : Team) (p : Coordinates) :
  In p (penguins_scan hb W H team) -> in_bounds W H (getArray p) = true.
Proof.
  unfold penguins_scan. intros Hin.
  apply in_flat_map in Hin. destruct Hin as [i [Hi Hin]].
  apply in_flat_map in Hin. destruct Hin as [j [Hj Hin]].
  apply in_range in Hi. apply in_range in Hj.
  destruct (cell hb i j) as [f|]; [|contradiction].
  destruct (occupied_by f team); [|contradiction].
  destruct Hin as [<- | []].
  apply in_bounds_iff.
  pose proof (roundtrip_column_bounds i j (proj1 Hi)) as Hb.
  cbv zeta in Hb. unfold getDoubleHex, getArray. cbn [isDouble arrayToDoubleHex negb].
  lia.
Qed.

Lemma GameState_init_rect (b : Board) (W H turn : Z) (start : Team)
    (fs : Fishes) (lm : option Move) :
  rectangular (hexFields b) W H ->
  let team := if Z.even turn then start else mkTeam (other_enum (teamEnum start)) in
  GameState_init b turn start fs lm
  = Ok (mkGameState start b turn (Py.int_half (turn + 1)) team
          (mkTeam (other_enum (teamEnum team))) lm fs
          (penguins_scan (hexFields b) W H team)).
Proof.
  intros Hr team. unfold GameState_init, currentTeamFromTurn_of.
  rewrite <- Zeven_mod. subst team.
  destruct (Z.even turn); simpl;
    rewrite ?Team_opponent_ok; simpl; rewrite ?Team_opponent_ok; simpl;
    rewrite (getTeamsPenguins_rect b W H) by exact Hr; reflexivity.
Qed.

(** C7: a game state built on a board of width [W] and height [H] has the
    starting team as [currentTeam] when the turn number is even and that
    team's opponent when it is odd; the state of the next turn number has
    the opposite [currentTeam]; [otherTeam] is the opponent of
    [currentTeam]. *)
Theorem C7_turn_parity (b : Board) (W H turn : Z) (start : Team)
    (fs : Fishes) (lm : option Move) :
  rectangular (hexFields b) W H ->
  exists gs gs',
    GameState_init b turn start fs lm = Ok gs
    /\ GameState_init b (turn + 1) start fs lm = Ok gs'
    /\ currentTeamFromTurn gs = Ok (currentTeam gs)
    /\ (Z.even turn = true -> currentTeam gs = start)
    /\ (Z.odd turn = true -> Team_opponent start = Ok (currentTeam gs))
    /\ Team_opponent (currentTeam gs) = Ok (otherTeam gs)
    /\ Team_opponent (currentTeam gs) = Ok (currentTeam gs')
    /\ Team_eq (currentTeam gs) (currentTeam gs') = false
    /\ Team_eq (currentTeam gs) (otherTeam gs) = false.
Proof.
  intros Hr.
  pose proof (GameState_init_rect b W H turn start fs lm Hr) as E1.
  pose proof (GameState_init_rect b W H (turn + 1) start fs lm Hr) as E2.
  cbv zeta in E1, E2.
  rewrite Z.add_1_r, Z.even_succ, <- Z.negb_even in E2.
  rewrite <- Z.add_1_r in E2.
  eexists. eexists. split; [exact E1|]. split; [exact E2|].
  unfold currentTeamFromTurn, currentTeamFromTurn_of. simpl.
  rewrite <- Zeven_mod, <- Z.negb_even.
  destruct (Z.even turn); destruct start as [[|]]; cbn;
    repeat split; try reflexivity; intros; discriminate.
Qed.

Lemma C7_turn_parity_witness :
  rectangular (hexFields (mkBoard board2x2)) 2 2
  /\ exists gs gs',
    GameState_init (mkBoard board2x2) 3 (mkTeam ONE) (mkFishes 0 0) None = Ok gs
    /\ GameState_init (mkBoard board2x2) (3 + 1) (mkTeam ONE) (mkFishes 0 0) None = Ok gs'
    /\ currentTeamFromTurn gs = Ok (currentTeam gs)
    /\ (Z.even 3 = true -> currentTeam gs = mkTeam ONE)
    /\ (Z.odd 3 = true -> Team_opponent (mkTeam ONE) = Ok (currentTeam gs))
    /\ Team_opponent (currentTeam gs) = Ok (otherTeam gs)
    /\ Team_opponent (currentTeam gs) = Ok (currentTeam gs')
    /\ Team_eq (currentTeam gs) (currentTeam gs') = false
    /\ Team_eq (currentTeam gs) (otherTeam gs) = false.
Proof.
  split; [reflexivity|].
  apply (C7_turn_parity (mkBoard board2x2) 2 2 3 (mkTeam ONE) (mkFishes 0 0) None).
  reflexivity.
Defined.

(** ** Move generation *)

Lemma possibleMovesFrom_rect (b : Board) (W H : Z) (p : Coordinates) :
  rectangular (hexFields b) W H ->
  in_bounds W H (getArray p) = true ->
  possibleMovesFrom b p = Ok (rays W p).
Proof.
  intros Hr Hv. pose proof (rectangular_inv _ _ _ Hr) as (Hw & _).
  unfold possibleMovesFrom. rewrite (isValid_rect _ W H) by exact Hr.
  rewrite Hv, bind_Ok. change (negb true) with false. cbv iota.
  apply for__flat_map_nil. intros s d _.
  rewrite getMovesInDirection_all, Hw. reflexivity.
Qed.

Lemma getPossibleMoves_placement (gs : GameState) (W H : Z) :
  rectangular (hexFields (board gs)) W H ->
  len (currentPieces gs) < 4 ->
  getPossibleMoves gs = Ok (placement_scan (hexFields (board gs)) W H).
Proof.
  intros Hr Hlt. pose proof (rectangular_inv _ _ _ Hr) as (Hw & Hh & _).
  unfold getPossibleMoves, placement_scan.
  apply Z.ltb_lt in Hlt. rewrite Hlt, Hw.
  apply for__flat_map_nil. intros s i Hi. rewrite Hh. simpl.
  apply for__flat_map. intros s' j Hj.
  apply in_range in Hi. apply in_range in Hj.
  destruct (getField_array_cell _ W H i j Hr) as [f [E1 E2]]; [lia | lia |].
  rewrite E1, E2. simpl. unfold free_with_one_fish.
  destruct (negb (Field_isOccupied f)
            && match Field_getFish f with Some n => n =? 1 | None => false end);
    [reflexivity | rewrite app_nil_r; reflexivity].
Qed.

Lemma getPossibleMoves_movement (gs : GameState) (W H : Z) :
  rectangular (hexFields (board gs)) W H ->
  4 <= len (currentPieces gs) ->
  (forall p, In p (currentPieces gs) -> in_bounds W H (getArray p) = true) ->
  getPossibleMoves gs = Ok (flat_map (rays W) (currentPieces gs)).
Proof.
  intros Hr Hge Hvalid. unfold getPossibleMoves.
  destruct (len (currentPieces gs) <? 4) eqn:E; [apply Z.ltb_lt in E; lia|].
  apply for__flat_map_nil. intros s p Hp.
  rewrite (possibleMovesFrom_rect _ W H) by auto. reflexivity.
Qed.

Lemma in_placement_scan (hb : HexBoard) (W H : Z) (m : Move) :
  rectangular hb W H ->
  (In m (placement_scan hb W H) <->
   fromCoo m = None
   /\ exists i j f,
       0 <= i < W - 1 /\ 0 <= j < H - 1
       /\ toCoo m = arrayToDoubleHex (mkCoordinates i j false)
       /\ getField hb (mkCoordinates i j false) = Ok f
       /\ Field_isOccupied f = false
       /\ Field_getFish f = Some 1).
Proof.
  intros Hr. unfold placement_scan. split.
  - intros Hin.
    apply in_flat_map in Hin. destruct Hin as [i [Hi Hin]].
    apply in_flat_map in Hin. destruct Hin as [j [Hj Hin]].
    apply in_range in Hi. apply in_range in Hj.
    destruct (getField_array_cell hb W H i j Hr) as [f [E1 E2]]; [lia | lia |].
    rewrite E2 in Hin.
    destruct (free_with_one_fish f) eqn:Ef; [|contradiction].
    destruct Hin as [<- | []].
    split; [reflexivity|]. exists i, j, f.
    unfold free_with_one_fish in Ef. apply andb_prop in Ef. destruct Ef as [Eo En].
    apply negb_true_iff in Eo.
    destruct (Field_getFish f) as [n|]; [|discriminate].
    apply Z.eqb_eq in En. subst n.
    repeat split; try lia; assumption.
  - intros [Hfrom (i & j & f & Hi & Hj & Hto & Hget & Ho & Hn)].
    destruct (getField_array_cell hb W H i j Hr) as [f' [E1 E2]]; [lia | lia |].
    assert (f' = f) by congruence. subst f'.
    apply in_flat_map. exists i. split; [apply in_range; lia|].
    apply in_flat_map. exists j. split; [apply in_range; lia|].
    rewrite E2. unfold free_with_one_fish. rewrite Ho, Hn. simpl.
    left. destruct m as [mf mt]. simpl in *. subst. reflexivity.
Qed.

Lemma in_rays_from (W : Z) (p : Coordinates) (m : Move) :
  In m (rays W p) -> fromCoo m = Some p.
Proof.
  unfold rays, ray. intros Hin.
  apply in_flat_map in Hin. destruct Hin as [d [_ Hin]].
  apply in_map_iff in Hin. destruct Hin as [i [<- _]]. reflexivity.
Qed.

Lemma possibleMovesFrom_each (b : Board) (W H : Z) (ps : list Coordinates) :
  rectangular (hexFields b) W H ->
  (forall p, In p ps -> in_bounds W H (getArray p) = true) ->
  Forall2 (fun p ms => possibleMovesFrom b p = Ok ms) ps (map (rays W) ps).
Proof.
  intros Hr. induction ps as [|p ps IH]; intros Hv; simpl; constructor.
  - apply (possibleMovesFrom_rect b W H); [exact Hr | apply Hv; left; reflexivity].
  - apply IH. intros q Hq. apply Hv. right. exact Hq.
Qed.

(** C5: for a game state built on a board of width [W] and height [H],
    [getPossibleMoves] returns a list.  While the current team has fewer than
    4 pieces on the board, its members are exactly the moves without origin
    whose destination is the double-hex form of an array cell (i, j) with
    [0 <= i < W - 1] and [0 <= j < H - 1] that is unoccupied and carries
    one fish.  With 4 or more pieces, the list is the concatenation of
    [possibleMovesFrom] over the current team's pieces, and every move in it
    has one of these pieces as origin. *)
Theorem C5_phase_switch (b : Board) (W H tn : Z) (start : Team)
    (fs : Fishes) (lm : option Move) :
  rectangular (hexFields b) W H ->
  exists gs moves,
    GameState_init b tn start fs lm = Ok gs
    /\ getTeamsPenguins b (currentTeam gs) = Ok (currentPieces gs)
    /\ getPossibleMoves gs = Ok moves
    /\ (len (currentPieces gs) < 4 ->
        forall m, In m moves <->
          fromCoo m = None
          /\ exists i j f,
              0 <= i < W - 1 /\ 0 <= j < H - 1
              /\ toCoo m = arrayToDoubleHex (mkCoordinates i j false)
              /\ getField (hexFields b) (mkCoordinates i j false) = Ok f
              /\ Field_isOccupied f = false
              /\ Field_getFish f = Some 1)
    /\ (4 <= len (currentPieces gs) ->
        (exists mss,
            Forall2 (fun p ms => possibleMovesFrom b p = Ok ms) (currentPieces gs) mss
            /\ moves = List.concat mss)
        /\ forall m, In m moves ->
             exists p, In p (currentPieces gs) /\ fromCoo m = Some p).
Proof.
  intros Hr.
  pose proof (GameState_init_rect b W H tn start fs lm Hr) as E. cbv zeta in E.
  set (team := if Z.even tn then start else mkTeam (other_enum (teamEnum start))) in *.
  set (gs := mkGameState start b tn (Py.int_half (tn + 1)) team
               (mkTeam (other_enum (teamEnum team))) lm fs
               (penguins_scan (hexFields b) W H team)) in *.
  assert (Hvalid : forall p, In p (currentPieces gs) -> in_bounds W H (getArray p) = true)
    by (intros p Hp; eapply penguins_scan_valid; exact Hp).
  destruct (Z_lt_le_dec (len (currentPieces gs)) 4) as [Hlt | Hge].
  - exists gs, (placement_scan (hexFields b) W H).
    split; [exact E|]. split; [apply (getTeamsPenguins_rect b W H); exact Hr|].
    split; [apply (getPossibleMoves_placement gs W H); assumption|].
    split; [|intros; lia].
    intros _ m. apply in_placement_scan. exact Hr.
  - exists gs, (flat_map (rays W) (currentPieces gs)).
    split; [exact E|]. split; [apply (getTeamsPenguins_rect b W H); exact Hr|].
    split; [apply (getPossibleMoves_movement gs W H); assumption|].
    split; [intros; lia|].
    intros _. split.
    + exists (map (rays W) (currentPieces gs)). split.
      * apply (possibleMovesFrom_each b W H); assumption.
      * apply flat_map_concat_map.
    + intros m Hin. apply in_flat_map in Hin. destruct Hin as [p [Hp Hin]].
      exists p. split; [exact Hp | eapply in_rays_from; exact Hin].
Qed.

Lemma C5_phase_switch_witness :
  rectangular (hexFields (mkBoard board2x2)) 2 2
  /\ exists gs moves,
    GameState_init (mkBoard board2x2) 0 (mkTeam ONE) (mkFishes 0 0) None = Ok gs
    /\ getTeamsPenguins (mkBoard board2x2) (currentTeam gs) = Ok (currentPieces gs)
    /\ getPossibleMoves gs = Ok moves
    /\ (len (currentPieces gs) < 4 ->
        forall m, In m moves <->
          fromCoo m = None
          /\ exists i j f,
              0 <= i < 2 - 1 /\ 0 <= j < 2 - 1
              /\ toCoo m = arrayToDoubleHex (mkCoordinates i j false)
              /\ getField (hexFields (mkBoard board2x2)) (mkCoordinates i j false) = Ok f
              /\ Field_isOccupied f = false
              /\ Field_getFish f = Some 1)
    /\ (4 <= len (currentPieces gs) ->
        (exists mss,
            Forall2 (fun p ms => possibleMovesFrom (mkBoard board2x2) p = Ok ms)
                    (currentPieces gs) mss
            /\ moves = List.concat mss)
        /\ forall m, In m moves ->
             exists p, In p (currentPieces gs) /\ fromCoo m = Some p).
Proof.
  split; [reflexivity|].
  apply (C5_phase_switch (mkBoard board2x2) 2 2 0 (mkTeam ONE) (mkFishes 0 0) None).
  reflexivity.
Defined.

(** Both phases on 2x2 boards: with no piece on the board the one interior
    cell (0, 0) is offered as placement; with four pieces each piece casts
    one step in each of the six directions. *)
Example getPossibleMoves_runs :
  (gs <- GameState_init (mkBoard board2x2) 0 (mkTeam ONE) (mkFishes 0 0) None ;;
   getPossibleMoves gs)
  = Ok [mkMove None (mkCoordinates 0 0 true)]
  /\ (gs <- GameState_init (mkBoard board_crowded) 0 (mkTeam ONE) (mkFishes 0 0) None ;;
      ms <- getPossibleMoves gs ;;
      Ok (currentPieces gs, len ms, forallb (fun m => match fromCoo m with
                                                     | Some _ => true
                                                     | None => false
                                                     end) ms))
     = Ok ([mkCoordinates 0 0 true; mkCoordinates 1 1 true;
            mkCoordinates 2 0 true; mkCoordinates 3 1 true], 24, true).
Proof. split; reflexivity. Qed.

(** ** Board comparison *)


Lemma compareTo_rect (b b' : HexBoard) (W H : Z) :
  rectangular b W H -> rectangular b' W H ->
  HexBoard_compareTo b b' = Ok (diff_scan b b' W H).
Proof.
  intros Hr Hr'.
  pose proof (rectangular_inv _ _ _ Hr) as (Hw & _ & _ & _ & _ & row0 & Hrow0 & Hlen).
  unfold HexBoard_compareTo, diff_scan. unfold width in Hw. rewrite Hw.
  apply for__flat_map_nil. intros s i Hi. rewrite Hrow0, bind_Ok, Hlen.
  apply for__flat_map. intros s' j Hj.
  apply in_range in Hi. apply in_range in Hj.
  destruct (getField_rect_cell b W H i j Hr Hi Hj) as [f [E1 E2]].
  destruct (getField_rect_cell b' W H i j Hr' Hi Hj) as [g [E3 E4]].
  rewrite E1, E2, E3, E4, !bind_Ok.
  destruct (Field_ne f g); [reflexivity | rewrite app_nil_r; reflexivity].
Qed.

Lemma in_diff_scan (b b' : HexBoard) (W H : Z) (f : Field) :
  In f (diff_scan b b' W H) <->
  exists i j g, 0 <= i < W /\ 0 <= j < H
                /\ cell b i j = Some f /\ cell b' i j = Some g /\ Field_ne f g = true.
Proof.
  unfold diff_scan. split.
  - intros Hin.
    apply in_flat_map in Hin. destruct Hin as [i [Hi Hin]].
    apply in_flat_map in Hin. destruct Hin as [j [Hj Hin]].
    apply in_range in Hi. apply in_range in Hj.
    destruct (cell b i j) as [a|] eqn:Ea; [|contradiction].
    destruct (cell b' i j) as [g|] eqn:Eg; [|contradiction].
    destruct (Field_ne a g) eqn:En; [|contradiction].
    destruct Hin as [<- | []]. exists i, j, g. auto.
  - intros (i & j & g & Hi & Hj & Ea & Eg & En).
    apply in_flat_map. exists i. split; [apply in_range; exact Hi|].
    apply in_flat_map. exists j. split; [apply in_range; exact Hj|].
    rewrite Ea, Eg, En. left. reflexivity.
Qed.




(** Fields are compared as objects: against a board holding equal
    contents in other field objects, every field of the receiver is
    reported. *)
Example compareTo_other_objects :
  HexBoard_eq board2x2 board2x2_copy = Ok (List.concat (gameField board2x2))
  /\ HexBoard_eq board2x2 board2x2 = Ok [].
Proof. split; reflexivity. Qed.

(** ** Enumerating the cells by flat index *)

Lemma getitem_ok_or_IndexError {A} (l : list A) (i : Z) :
  getitem l i = Raise IndexError \/ exists a, getitem l i = Ok a.
Proof.
  unfold getitem.
  destruct ((if i <? 0 then i + len l else i) <? 0); [left; reflexivity|].
  destruct (nth_error l _) as [a|]; [right; exists a; reflexivity | left; reflexivity].
Qed.

Lemma height_inv (b : HexBoard) (H : Z) :
  height b = Ok H ->
  0 < width b /\ exists row0, getitem (gameField b) 0 = Ok row0 /\ len row0 = H.
Proof.
  unfold height, width. intros Hh.
  destruct (gameField b) as [|row0 rows] eqn:Eg; [discriminate|].
  split; [unfold len; simpl; lia|].
  exists row0. split; [reflexivity|].
  unfold getitem in Hh. simpl in Hh. congruence.
Qed.

(** The bounds test needs only the first row. *)
Lemma isValid_height (b : HexBoard) (H : Z) (c : Coordinates) :
  height b = Ok H ->
  HexBoard_isValid b c = Ok (in_bounds (width b) H (getArray c)).
Proof.
  intros Hh. destruct (height_inv b H Hh) as (_ & row0 & Hrow0 & Hlen).
  unfold HexBoard_isValid, in_bounds, width. rewrite Hrow0, bind_Ok, Hlen.
  destruct ((0 <=? x (getArray c)) && (x (getArray c) <? len (gameField b)));
    reflexivity.
Qed.

Lemma getField_ok_or_IndexError (b : HexBoard) (H : Z) (c : Coordinates) :
  height b = Ok H ->
  getField b c = Raise IndexError \/ exists f, getField b c = Ok f.
Proof.
  intros Hh. unfold getField. rewrite (isValid_height b H) by exact Hh.
  rewrite bind_Ok.
  destruct (in_bounds (width b) H (getArray (getArray c))); [|left; reflexivity].
  unfold HexBoard__getField.
  destruct (getitem_ok_or_IndexError (gameField b) (x (getArray c))) as [E | [row E]];
    rewrite E; [left; reflexivity|].
  rewrite bind_Ok. apply getitem_ok_or_IndexError.
Qed.

Lemma getField_out_of_bounds (b : HexBoard) (H : Z) (c : Coordinates) :
  height b = Ok H ->
  in_bounds (width b) H (getArray c) = false ->
  getField b c = Raise IndexError.
Proof.
  intros Hh Hv. unfold getField. rewrite (isValid_height b H) by exact Hh.
  rewrite getArray_idem, Hv. reflexivity.
Qed.

Lemma getFieldByIndex_unfold (b : HexBoard) (H i : Z) :
  height b = Ok H ->
  getFieldByIndex b i
  = getField b (mkCoordinates (i / width b) (i mod width b) false).
Proof.
  intros Hh. destruct (height_inv b H Hh) as (HW & _).
  unfold getFieldByIndex.
  destruct (width b =? 0) eqn:E; [apply Z.eqb_eq in E; lia | reflexivity].
Qed.

Lemma getFieldByIndex_rect (b : HexBoard) (W H i : Z) :
  rectangular b W H ->
  getFieldByIndex b i = getField b (mkCoordinates (i / W) (i mod W) false).
Proof.
  intros Hr. pose proof (rectangular_inv _ _ _ Hr) as (Hw & Hh & _).
  rewrite (getFieldByIndex_unfold b H) by exact Hh. rewrite Hw. reflexivity.
Qed.

(** On a board that is not square some flat index below [W * H] is
    decomposed into a coordinate outside the board. *)
Lemma getFieldByIndex_bad_index (b : HexBoard) (H : Z) :
  height b = Ok H -> 0 < H -> width b <> H ->
  exists i, In i (range (width b * H)) /\ getFieldByIndex b i = Raise IndexError.
Proof.
  intros Hh HH Hne. destruct (height_inv b H Hh) as (HW & _).
  set (W := width b) in *.
  destruct (Z_lt_le_dec W H) as [Hlt | Hge].
  - exists (W * W). split; [apply in_range; nia|].
    rewrite (getFieldByIndex_unfold b H) by exact Hh.
    apply (getField_out_of_bounds b H); [exact Hh|].
    rewrite getArray_array by reflexivity. fold W.
    destruct (in_bounds W H _) eqn:E; [|reflexivity].
    apply in_bounds_iff in E. cbn [x y] in E.
    rewrite Z.div_mul in E by lia. lia.
  - exists H. split; [apply in_range; nia|].
    rewrite (getFieldByIndex_unfold b H) by exact Hh.
    apply (getField_out_of_bounds b H); [exact Hh|].
    rewrite getArray_array by reflexivity. fold W.
    destruct (in_bounds W H _) eqn:E; [|reflexivity].
    apply in_bounds_iff in E. cbn [x y] in E.
    rewrite Z.mod_small in E by lia. lia.
Qed.

Lemma length_concat_rect {A} (rows : list (list A)) (h : nat) :
  Forall (fun row => List.length row = h) rows ->
  List.length (List.concat rows) = (List.length rows * h)%nat.
Proof.
  induction 1 as [|row rows Hrow _ IH]; simpl; [reflexivity|].
  rewrite length_app, IH, Hrow. reflexivity.
Qed.

Lemma nth_error_concat_rect {A} (rows : list (list A)) (h i j : nat) :
  Forall (fun row => List.length row = h) rows ->
  (j < h)%nat ->
  nth_error (List.concat rows) (i * h + j)
  = match nth_error rows i with
    | Some row => nth_error row j
    | None => None
    end.
Proof.
  intros HF Hj. revert i. induction HF as [|row rows Hrow _ IH]; intros i.
  - simpl. destruct i; simpl; [destruct j | destruct (h + i * h + j)%nat]; reflexivity.
  - destruct i as [|i]; simpl.
    + apply nth_error_app1. lia.
    + rewrite nth_error_app2 by lia.
      replace (h + i * h + j - List.length row)%nat with (i * h + j)%nat by lia.
      apply IH.
Qed.

(** A comprehension over [range(len(l))] that reads [l] by position is [l]. *)
Lemma comprehension_by_position {A} (f : Z -> res A) (l : list A) (s : nat) :
  (forall k a, nth_error l k = Some a -> f (Z.of_nat (s + k)) = Ok a) ->
  comprehension f (map Z.of_nat (seq s (List.length l))) = Ok l.
Proof.
  revert s. induction l as [|a l IH]; intros s Hf; simpl; [reflexivity|].
  rewrite <- (Nat.add_0_r s) at 1. rewrite (Hf O a eq_refl), bind_Ok.
  rewrite (IH (S s)); [reflexivity|].
  intros k a' Hk. replace (S s + k)%nat with (s + S k)%nat by lia.
  apply Hf. exact Hk.
Qed.

Lemma getAllFields_square (b : HexBoard) (W : Z) :
  rectangular b W W ->
  getAllFields b = Ok (List.concat (gameField b)).
Proof.
  intros Hr.
  pose proof (rectangular_inv _ _ _ Hr) as (Hw & Hh & HW & _ & HF & _).
  unfold getAllFields. rewrite Hh, bind_Ok, Hw.
  set (w := List.length (gameField b)).
  assert (EW : W = Z.of_nat w) by (rewrite <- Hw; reflexivity).
  assert (HF' : Forall (fun row => List.length row = w) (gameField b)).
  { eapply Forall_impl; [|exact HF]. intros row Hrow. cbv beta in Hrow.
    unfold len in Hrow. lia. }
  assert (Hcl : List.length (List.concat (gameField b)) = (w * w)%nat)
    by (rewrite (length_concat_rect _ w HF'); reflexivity).
  assert (Hlen : Z.to_nat (W * W) = List.length (List.concat (gameField b)))
    by (rewrite Hcl; lia).
  unfold range, range2. rewrite Z.sub_0_r, Hlen.
  apply (comprehension_by_position _ _ O). intros k a Hk. simpl.
  assert (Hklt : (k < w * w)%nat).
  { rewrite <- Hcl. apply nth_error_Some. congruence. }
  assert (Hwpos : (0 < w)%nat) by lia.
  pose proof (Nat.div_mod_eq k w) as Hdm.
  assert (Hj : (k mod w < w)%nat) by (apply Nat.mod_upper_bound; lia).
  assert (Hi : (k / w < w)%nat) by (apply Nat.Div0.div_lt_upper_bound; lia).
  rewrite (getFieldByIndex_rect b W W) by exact Hr.
  replace (Z.of_nat k / W) with (Z.of_nat (k / w))
    by (rewrite Nat2Z.inj_div; f_equal; lia).
  replace (Z.of_nat k mod W) with (Z.of_nat (k mod w))
    by (rewrite Nat2Z.inj_mod; f_equal; lia).
  destruct (getField_array_cell b W W (Z.of_nat (k / w)) (Z.of_nat (k mod w)) Hr)
    as [f [E1 E2]]; [lia | lia |].
  rewrite E1. f_equal.
  unfold cell in E2. rewrite !Nat2Z.id in E2.
  pose proof (nth_error_concat_rect (gameField b) w (k / w) (k mod w) HF' Hj) as Hc.
  replace (k / w * w + k mod w)%nat with k in Hc by lia.
  congruence.
Qed.

(** C10 as stated fails on a board whose rows have no cells: the board
    with one empty row has width 1 and height 0, and [getAllFields] and
    [getPenguins] return the empty list without raising. *)
Lemma C10_counterexample_empty_rows :
  rectangular board1x0 1 0
  /\ width board1x0 = 1
  /\ height board1x0 = Ok 0
  /\ getAllFields board1x0 = Ok []
  /\ getPenguins (mkBoard board1x0) = Ok [].
Proof. repeat split. Qed.

(** C10 (amended): [getFieldByIndex] takes [index // width] as x and
    [index % width] as y.  On every board of height [H >= 1] whose width
    differs from [H], [getAllFields] raises [IndexError] and so does
    [getPenguins]; on a square board they return all cells, row list after
    row list, and the occupied ones among them. *)
Theorem C10_getAllFields_square_only (b : HexBoard) (H : Z) :
  height b = Ok H -> 0 < H ->
  (forall i, getFieldByIndex b i
             = getField b (mkCoordinates (i / width b) (i mod width b) false))
  /\ (width b <> H ->
      getAllFields b = Raise IndexError
      /\ getPenguins (mkBoard b) = Raise IndexError)
  /\ (rectangular b H H ->
      getAllFields b = Ok (List.concat (gameField b))
      /\ getPenguins (mkBoard b)
         = Ok (filter Field_isOccupied (List.concat (gameField b)))).
Proof.
  intros Hh HH.
  split; [intros i; apply (getFieldByIndex_unfold b H); exact Hh|].
  split.
  - intros Hne.
    assert (E : getAllFields b = Raise IndexError).
    { unfold getAllFields. rewrite Hh, bind_Ok.
      apply comprehension_raise.
      - intros i _. rewrite (getFieldByIndex_unfold b H) by exact Hh.
        apply (getField_ok_or_IndexError b H). exact Hh.
      - apply (getFieldByIndex_bad_index b H); assumption. }
    split; [exact E|]. unfold getPenguins. cbn [hexFields]. rewrite E. reflexivity.
  - intros Hr.
    pose proof (getAllFields_square b H Hr) as E.
    split; [exact E|]. unfold getPenguins. cbn [hexFields]. rewrite E. reflexivity.
Qed.

Lemma C10_getAllFields_square_only_witness :
  height board2x1 = Ok 1 /\ 0 < 1
  /\ (forall i, getFieldByIndex board2x1 i
                = getField board2x1
                    (mkCoordinates (i / width board2x1) (i mod width board2x1) false))
  /\ (width board2x1 <> 1 ->
      getAllFields board2x1 = Raise IndexError
      /\ getPenguins (mkBoard board2x1) = Raise IndexError)
  /\ (rectangular board2x1 1 1 ->
      getAllFields board2x1 = Ok (List.concat (gameField board2x1))
      /\ getPenguins (mkBoard board2x1)
         = Ok (filter Field_isOccupied (List.concat (gameField board2x1)))).
Proof.
  split; [reflexivity|]. split; [lia|].
  apply (C10_getAllFields_square_only board2x1 1); [reflexivity | lia].
Defined.

(** The run on the 2x1 board: index 0 is cell (0, 0), index 1 is taken as
    (0, 1), which is outside.  On the 2x2 board all four cells come back.
    A ragged board fails as well. *)
Example getAllFields_runs :
  getFieldByIndex board2x1 0 = Ok (mkField 0 (FInt 1))
  /\ getFieldByIndex board2x1 1 = Raise IndexError
  /\ getAllFields board2x1 = Raise IndexError
  /\ getAllFields board2x2 = Ok (List.concat (gameField board2x2))
  /\ getAllFields board_ragged = Raise IndexError.
Proof. repeat split. Qed.

(** ** The session: error packets and the room-left procedure *)

Section GameClientFacts.

Context {StateT ResultT DataT MoveT GameStateT H : Type}
        {handler : @IClientHandler StateT ResultT DataT MoveT GameStateT H}.
Variable connect_script : nat -> ConnectOutcome.
Variable str_packet : @ProtocolPacket StateT ResultT DataT -> string.
Variable handle_move : MoveT -> DataT.
Variable if_last_game_state :
  @ProtocolPacket StateT ResultT DataT -> GameStateT -> GameStateT.
Variable if_not_last_game_state : @ProtocolPacket StateT ResultT DataT -> GameStateT.

Local Abbreviation client := (@GameClient ResultT DataT GameStateT H).

Lemma stop_not_running (c : client) :
  running (stop c) = false /\ connected (stop c) = false.
Proof. unfold stop. destruct c as [? ? ? ? ? ? ? ? [|] ? ?]; split; reflexivity. Qed.

Lemma stop_trace (c : client) :
  trace (stop c)
  = trace c ++ [Logged "INFO" "Shutting down..."]
            ++ (if connected c then [Disconnect] else []).
Proof.
  unfold stop. destruct c as [? ? ? ? ? ? ? ? [|] ? ?]; simpl.
  - rewrite <- app_assoc. reflexivity.
  - reflexivity.
Qed.

Lemma stop_idempotent (c : client) :
  running (stop (stop c)) = false /\ connected (stop (stop c)) = false.
Proof. apply stop_not_running. Qed.

(** [join] sends exactly one packet and opens one history slot. *)
Lemma join_sends_once (c : client) :
  exists p, trace (join c) = trace c ++ [Sent p]
            /\ history (join c) = history c ++ [[]]
            /\ running (join c) = running c
            /\ first_time (join c) = false.
Proof.
  unfold join.
  destruct (nonempty (reservation c)); [|destruct (nonempty (room_id c))];
    eexists; repeat split.
Qed.

(** The reconnection loop calls [connect()] at most [n] times. *)
Lemma reconnect_attempts_bound (n : nat) (c : client) :
  (connects c <= connects (reconnect_attempts connect_script n c) <= connects c + n)%nat.
Proof.
  revert c. induction n as [|n IH]; intros c; simpl; [lia|].
  unfold connect. cbn [connects emit].
  destruct (connect_script (connects c)); cbn [connects count_connect emit set_connected].
  - cbn [connected set_connected count_connect emit]. cbn. lia.
  - match goal with |- context [if ?b then _ else _] => destruct b end.
    + cbn. lia.
    + match goal with |- context [reconnect_attempts _ n ?c'] =>
        specialize (IH c'); cbn in IH end. lia.
  - match goal with |- context [reconnect_attempts _ n ?c'] =>
      specialize (IH c'); cbn in IH end.
    destruct (connected c); cbn in *; lia.
Qed.

(** C8: on an error packet the dispatcher logs it, calls [on_error] with
    the text of the packet and then [stop()]: afterwards [running] is
    false and the client is not connected.  The same holds when the packet
    comes through one round of the receive loop of a connected client. *)
Theorem C8_error_packet_stops_session (message : string) (c : client) :
  let msg := str_packet (Errorpacket message) in
  exists c',
    _on_object str_packet handle_move if_last_game_state if_not_last_game_state
               (Errorpacket message) c = Ok c'
    /\ running c' = false
    /\ connected c' = false
    /\ _game_handler c' = on_error msg (_game_handler c)
    /\ trace c'
       = trace c
         ++ [Logged "ERROR" ("An error occurred while handling the request: " ++ msg);
             Called (call_on_error msg);
             Logged "INFO" "Shutting down..."]
         ++ (if connected c then [Disconnect] else [])
    /\ _client_loop_body connect_script str_packet handle_move
         if_last_game_state if_not_last_game_state
         (Packet (Errorpacket message)) (set_connected true c)
       = Ok (emit GcCollect
               (stop (notify (call_on_error msg) (on_error msg)
                        (emit (Logged "ERROR"
                                 ("An error occurred while handling the request: " ++ msg))
                           (emit (Logged "DEBUG" "Received new object")
                              (set_connected true c))))))
    /\ running (emit GcCollect c') = false.
Proof.
  intros msg. eexists. split; [reflexivity|].
  destruct c as [h hs rsv rid ar sv rn ft [|] cn tr]; cbn;
    repeat split; rewrite <- ?app_assoc; reflexivity.
Qed.

(** With auto-reconnect, the room-left procedure ends in [join()] whatever
    the attempts gave, after at most 3 calls of [connect()]. *)
Lemma handle_left_always_joins (c : client) :
  auto_reconnect c = true ->
  exists c_mid,
    _handle_left connect_script c = join c_mid
    /\ (connects c_mid <= connects c + 3)%nat.
Proof.
  intros Har. destruct c as [h hs rsv rid ar sv rn ft cd cn tr].
  cbn in Har. subst ar. unfold _handle_left.
  destruct sv; cbn -[reconnect_attempts join];
    (eexists; split; [reflexivity|]);
    match goal with |- context [reconnect_attempts _ 3 ?c'] =>
      pose proof (reconnect_attempts_bound 3 c') as Hb end;
    cbn -[reconnect_attempts] in Hb; lia.
Qed.

End GameClientFacts.

(** C3 (defect in [_handle_left]): the loop over the 3 attempts has no
    exit for failure, and [join()] follows it unconditionally.  When all 3
    attempts return without a connection, the client sleeps one second after
    each, then sends the join packet and stays [running].  When the first
    attempt raises, [stop()] is called, yet the two remaining attempts are
    still made and the join packet is still sent; the same when all 3
    attempts raise. *)
Theorem C3_exhausted_attempts_still_join :
  let c := _handle_left never_up reconnecting_client in
  let c' := _handle_left raises_first reconnecting_client in
  let c'' := _handle_left always_raises reconnecting_client in
  running c = true
  /\ connected c = false
  /\ connects c = 3%nat
  /\ history c = history reconnecting_client ++ [[]]
  /\ trace c
     = [ Disconnect;
         Logged "INFO" "The server left. Client tries to reconnect to the server.";
         Logged "INFO" "Try to establish a connection with the server...";
         Connect; Slept 1;
         Logged "INFO" "Try to establish a connection with the server...";
         Connect; Slept 1;
         Logged "INFO" "Try to establish a connection with the server...";
         Connect; Slept 1;
         Sent Join ]
  /\ running c' = false
  /\ connects c' = 3%nat
  /\ trace c'
     = [ Disconnect;
         Logged "INFO" "The server left. Client tries to reconnect to the server.";
         Logged "INFO" "Try to establish a connection with the server...";
         Connect;
         Logged "ERROR" "exception";
         Logged "INFO" "The client couldn't reconnect due to a previous error.";
         Logged "INFO" "Shutting down...";
         Slept 1;
         Logged "INFO" "Try to establish a connection with the server...";
         Connect; Slept 1;
         Logged "INFO" "Try to establish a connection with the server...";
         Connect; Slept 1;
         Sent Join ]
  /\ running c'' = false
  /\ connects c'' = 3%nat
  /\ history c'' = history reconnecting_client ++ [[]]
  /\ trace c''
     = [ Disconnect;
         Logged "INFO" "The server left. Client tries to reconnect to the server.";
         Logged "INFO" "Try to establish a connection with the server...";
         Connect;
         Logged "ERROR" "exception";
         Logged "INFO" "The client couldn't reconnect due to a previous error.";
         Logged "INFO" "Shutting down...";
         Slept 1;
         Logged "INFO" "Try to establish a connection with the server...";
         Connect;
         Logged "ERROR" "exception";
         Logged "INFO" "The client couldn't reconnect due to a previous error.";
         Logged "INFO" "Shutting down...";
         Slept 1;
         Logged "INFO" "Try to establish a connection with the server...";
         Connect;
         Logged "ERROR" "exception";
         Logged "INFO" "The client couldn't reconnect due to a previous error.";
         Logged "INFO" "Shutting down...";
         Slept 1;
         Sent Join ].
Proof. vm_compute. repeat split. Qed.

(** When the second attempt succeeds, the loop is left at once and the
    join packet is sent once; the client stays [running] and is connected. *)
Example reconnect_on_second_attempt :
  let c := _handle_left up_on_second reconnecting_client in
  running c = true
  /\ connected c = true
  /\ connects c = 2%nat
  /\ trace c
     = [ Disconnect;
         Logged "INFO" "The server left. Client tries to reconnect to the server.";
         Logged "INFO" "Try to establish a connection with the server...";
         Connect; Slept 1;
         Logged "INFO" "Try to establish a connection with the server...";
         Connect;
         Logged "INFO" "Reconnected to server.";
         Sent Join ].
Proof. vm_compute. repeat split. Qed.

(** * Further properties *)

(** ** Vectors and coordinates *)

(** X1: [minus] undoes [plus] and the other way round, [times] distributes
    over [plus], and [compareTo] answers true exactly for equal vectors. *)
Theorem X1_vector_algebra (v w : Vector) (k : Z) :
  Vector_minus (Vector_plus v w) w = v
  /\ Vector_plus (Vector_minus v w) w = v
  /\ Vector_times (Vector_plus v w) k = Vector_plus (Vector_times v k) (Vector_times w k)
  /\ (Vector_compareTo v w = true <-> v = w).
Proof.
  destruct v as [a b], w as [c d].
  unfold Vector_minus, Vector_plus, Vector_times, Vector_compareTo. cbn [dx dy].
  repeat split; try (f_equal; lia).
  - intros E. apply andb_prop in E. destruct E as [E1 E2].
    apply Z.eqb_eq in E1. apply Z.eqb_eq in E2. congruence.
  - intros E. injection E as -> ->. rewrite !Z.eqb_refl. reflexivity.
Qed.

(** X3: the vectors accepted by [isOneHexMove] are closed under scaling:
    the test accepts every multiple of a vector it accepts, not only steps
    of one hex, and it accepts the zero vector. *)
Theorem X3_isOneHexMove_scaling (v : Vector) (k : Z) :
  Vector_isOneHexMove v = true ->
  Vector_isOneHexMove (Vector_times v k) = true
  /\ Vector_isOneHexMove (Vector_times v 0) = true.
Proof.
  destruct v as [a b]. unfold Vector_isOneHexMove, Vector_times. cbn [dx dy].
  intros E. apply orb_prop in E.
  assert (Hk : forall k, (Z.abs (a * k) =? Z.abs (b * k))
                         || ((a * k) mod 2 =? 0) && (b * k =? 0) = true).
  { intros k0. destruct E as [E | E].
    - apply Z.eqb_eq in E. apply orb_true_intro. left. apply Z.eqb_eq.
      rewrite !Z.abs_mul, E. reflexivity.
    - apply andb_prop in E. destruct E as [E1 E2].
      apply Z.eqb_eq in E1. apply Z.eqb_eq in E2. subst b.
      apply orb_true_intro. right. apply andb_true_intro. split.
      + apply Z.eqb_eq. rewrite Z.mul_mod by lia. rewrite E1.
        rewrite Z.mul_0_l. reflexivity.
      + apply Z.eqb_eq. lia. }
  split; apply Hk.
Qed.

Lemma X3_isOneHexMove_scaling_witness :
  Vector_isOneHexMove (mkVector 1 (-1)) = true
  /\ Vector_isOneHexMove (Vector_times (mkVector 1 (-1)) 5) = true
  /\ Vector_isOneHexMove (Vector_times (mkVector 1 (-1)) 0) = true.
Proof.
  split; [reflexivity|].
  apply (X3_isOneHexMove_scaling (mkVector 1 (-1)) 5). reflexivity.
Defined.

Lemma direction_cases (d : Vector) :
  In d DIRECTIONS ->
  d = mkVector 1 (-1) \/ d = mkVector (-2) 0 \/ d = mkVector 1 1
  \/ d = mkVector (-1) 1 \/ d = mkVector 2 0 \/ d = mkVector (-1) (-1).
Proof.
  unfold DIRECTIONS. simpl. intros Hin.
  repeat (destruct Hin as [<- | Hin]; [tauto|]). contradiction.
Qed.

(** X2: the six directions are closed under negation and each is accepted
    by [isOneHexMove]; adding any multiple of a direction to a double-hex
    coordinate whose x + y is even gives a double-hex coordinate whose
    x + y is even again. *)
Theorem X2_directions_keep_lattice (d : Vector) (k : Z) (c : Coordinates) :
  In d DIRECTIONS -> isDouble c = true -> (x c + y c) mod 2 = 0 ->
  In (Vector_times d (-1)) DIRECTIONS
  /\ Vector_isOneHexMove d = true
  /\ isDouble (addVector c (Vector_times d k)) = true
  /\ (x (addVector c (Vector_times d k)) + y (addVector c (Vector_times d k))) mod 2 = 0.
Proof.
  intros Hd Hc Hpar.
  assert (Hsum : exists q, dx d + dy d = 2 * q).
  { destruct (direction_cases d Hd) as [-> | [-> | [-> | [-> | [-> | ->]]]]]; cbn [dx dy];
      [exists 0 | exists (-1) | exists 1 | exists 0 | exists 1 | exists (-1)]; reflexivity. }
  split.
  { destruct (direction_cases d Hd) as [-> | [-> | [-> | [-> | [-> | ->]]]]];
      vm_compute; tauto. }
  split.
  { destruct (direction_cases d Hd) as [-> | [-> | [-> | [-> | [-> | ->]]]]]; reflexivity. }
  unfold addVector. rewrite Hc.
  unfold Vector_toCoordinates, Vector_plus, Coordinates_getVector, Vector_times.
  cbn [x y isDouble dx dy]. split; [reflexivity|].
  destruct Hsum as [q Hq].
  replace (x c + dx d * k + (y c + dy d * k)) with ((x c + y c) + (q * k) * 2) by nia.
  rewrite Z.mod_add by lia. exact Hpar.
Qed.

Lemma X2_directions_keep_lattice_witness :
  In (mkVector (-2) 0) DIRECTIONS /\ isDouble (mkCoordinates 3 1 true) = true
  /\ (x (mkCoordinates 3 1 true) + y (mkCoordinates 3 1 true)) mod 2 = 0
  /\ In (Vector_times (mkVector (-2) 0) (-1)) DIRECTIONS
  /\ Vector_isOneHexMove (mkVector (-2) 0) = true
  /\ isDouble (addVector (mkCoordinates 3 1 true) (Vector_times (mkVector (-2) 0) 4)) = true
  /\ (x (addVector (mkCoordinates 3 1 true) (Vector_times (mkVector (-2) 0) 4))
      + y (addVector (mkCoordinates 3 1 true) (Vector_times (mkVector (-2) 0) 4))) mod 2 = 0.
Proof.
  split; [simpl; tauto|]. split; [reflexivity|]. split; [reflexivity|].
  apply (X2_directions_keep_lattice (mkVector (-2) 0) 4 (mkCoordinates 3 1 true));
    [simpl; tauto | reflexivity | reflexivity].
Defined.

Lemma int_half_pred (n : Z) :
  Py.int_half (n * 2 - 1) = if 1 <=? n then n - 1 else n.
Proof.
  destruct (1 <=? n) eqn:E.
  - apply Z.leb_le in E.
    replace (n * 2 - 1) with ((n - 1) * 2 + 1) by lia. apply int_half_odd. lia.
  - apply Z.leb_gt in E. unfold Py.int_half.
    replace (n * 2 - 1) with (- ((- n) * 2 + 1)) by lia.
    rewrite Z.quot_opp_l by lia.
    pose proof (int_half_odd (- n)) as Hh. unfold Py.int_half in Hh.
    rewrite Hh by lia. lia.
Qed.

Lemma row_offset_parity (cx cy : Z) (t : bool) :
  (row_offset (mkCoordinates cx cy t) + cy) mod 2 = 0.
Proof.
  unfold row_offset. cbn [y].
  pose proof (Z.mod_pos_bound cy 2 ltac:(lia)) as Hb.
  pose proof (Z.div_mod cy 2 ltac:(lia)) as Hd.
  destruct (cy mod 2 =? 1) eqn:E.
  - apply Z.eqb_eq in E.
    replace (1 + cy) with (0 + (cy / 2 + 1) * 2) by lia.
    rewrite Z.mod_add by lia. reflexivity.
  - apply Z.eqb_neq in E.
    replace (0 + cy) with (0 + (cy / 2) * 2) by lia.
    rewrite Z.mod_add by lia. reflexivity.
Qed.

(** X4: [arrayToDoubleHex] always gives a double-hex tagged coordinate whose
    x + y is even, keeps the row, and sends different array coordinates to
    different double-hex coordinates. *)
Theorem X4_arrayToDoubleHex_injective (a b : Coordinates) :
  isDouble (arrayToDoubleHex a) = true
  /\ y (arrayToDoubleHex a) = y a
  /\ (x (arrayToDoubleHex a) + y (arrayToDoubleHex a)) mod 2 = 0
  /\ (arrayToDoubleHex a = arrayToDoubleHex b -> x a = x b /\ y a = y b).
Proof.
  destruct a as [ax ay at_], b as [bx by_ bt].
  split; [reflexivity|]. split; [reflexivity|]. split.
  - unfold arrayToDoubleHex. cbn [x y].
    pose proof (row_offset_parity ax ay at_) as Hp.
    replace (ax * 2 + row_offset (mkCoordinates ax ay at_) + ay)
      with (row_offset (mkCoordinates ax ay at_) + ay + ax * 2) by lia.
    rewrite Z.mod_add by lia. exact Hp.
  - unfold arrayToDoubleHex, row_offset. cbn [x y]. intros E.
    injection E as E1 E2. subst by_. split; [|reflexivity].
    destruct (ay mod 2 =? 1); lia.
Qed.

Lemma X4_arrayToDoubleHex_injective_witness :
  isDouble (arrayToDoubleHex (mkCoordinates 2 3 false)) = true
  /\ y (arrayToDoubleHex (mkCoordinates 2 3 false)) = y (mkCoordinates 2 3 false)
  /\ (x (arrayToDoubleHex (mkCoordinates 2 3 false))
      + y (arrayToDoubleHex (mkCoordinates 2 3 false))) mod 2 = 0
  /\ (arrayToDoubleHex (mkCoordinates 2 3 false) = arrayToDoubleHex (mkCoordinates 2 3 false) ->
      x (mkCoordinates 2 3 false) = x (mkCoordinates 2 3 false)
      /\ y (mkCoordinates 2 3 false) = y (mkCoordinates 2 3 false)).
Proof.
  apply (X4_arrayToDoubleHex_injective (mkCoordinates 2 3 false) (mkCoordinates 2 3 false)).
Defined.

(** X5: what the two round trips give, row by row, for columns below
    [2^52] in absolute value (where the float division of
    [doubleHexToArray] is exact).  From array form and back: the same
    coordinate on even rows and in columns up to 0, one column to the left
    on odd rows from column 1 on.  From double-hex form and back: the same
    coordinate on even rows (x = 2q), and on odd rows (x = 2q + 1) two to
    the left from q = 1 on. *)
Theorem X5_roundtrips_by_row (cx cy q : Z) :
  Z.abs cx < 2 ^ 52 -> Z.abs q < 2 ^ 52 ->
  doubleHexToArray (arrayToDoubleHex (mkCoordinates cx cy false))
  = mkCoordinates (if (cy mod 2 =? 1) && (1 <=? cx) then cx - 1 else cx) cy false
  /\ arrayToDoubleHex (doubleHexToArray (mkCoordinates (2 * q + (if cy mod 2 =? 1 then 1 else 0)) cy true))
     = mkCoordinates (if (cy mod 2 =? 1) && (1 <=? q) then 2 * q - 1
                      else 2 * q + (if cy mod 2 =? 1 then 1 else 0)) cy true.
Proof.
  intros _ _.
  unfold doubleHexToArray, arrayToDoubleHex, row_offset. cbn [x y].
  destruct (cy mod 2 =? 1) eqn:E; cbn [andb].
  - split.
    + f_equal. replace (cx * 2 + 1 - 2 * 1) with (cx * 2 - 1) by lia.
      apply int_half_pred.
    + f_equal. replace (2 * q + 1 - 2 * 1) with (q * 2 - 1) by lia.
      rewrite int_half_pred. destruct (1 <=? q); lia.
  - split.
    + f_equal. replace (cx * 2 + 0 - 2 * 0) with (cx * 2) by lia.
      apply int_half_double.
    + f_equal. replace (2 * q + 0 - 2 * 0) with (q * 2) by lia.
      rewrite int_half_double. lia.
Qed.

Lemma X5_roundtrips_by_row_witness :
  Z.abs 3 < 2 ^ 52 /\ Z.abs 2 < 2 ^ 52
  /\ doubleHexToArray (arrayToDoubleHex (mkCoordinates 3 1 false))
     = mkCoordinates (if (1 mod 2 =? 1) && (1 <=? 3) then 3 - 1 else 3) 1 false
  /\ arrayToDoubleHex (doubleHexToArray (mkCoordinates (2 * 2 + (if 1 mod 2 =? 1 then 1 else 0)) 1 true))
     = mkCoordinates (if (1 mod 2 =? 1) && (1 <=? 2) then 2 * 2 - 1
                      else 2 * 2 + (if 1 mod 2 =? 1 then 1 else 0)) 1 true.
Proof.
  split; [reflexivity|]. split; [reflexivity|].
  apply (X5_roundtrips_by_row 3 1 2); reflexivity.
Defined.

(** X6: [getArray] and [getDoubleHex] fix the tag they promise and are
    idempotent; each leaves a coordinate that already has the tag as it
    is. *)
Theorem X6_representation_switches (c : Coordinates) :
  isDouble (getArray c) = false
  /\ isDouble (getDoubleHex c) = true
  /\ getArray (getArray c) = getArray c
  /\ getDoubleHex (getDoubleHex c) = getDoubleHex c
  /\ getArray (mkCoordinates (x c) (y c) false) = mkCoordinates (x c) (y c) false
  /\ getDoubleHex (mkCoordinates (x c) (y c) true) = mkCoordinates (x c) (y c) true.
Proof. destruct c as [cx cy [|]]; repeat split. Qed.

(** ** Moves *)

(** X7: for an origin in double-hex form, the delta of [Move.move(origin,
    delta)] is [delta] again; a move without origin has no delta (the call
    raises). *)
Theorem X7_move_delta_roundtrip (origin : Coordinates) (delta : Vector) :
  isDouble origin = true ->
  Move_getDelta (Move_move origin delta) = Some (Vector_toCoordinates delta)
  /\ Move_getDelta (Move_init (addVector origin delta) None) = None.
Proof.
  intros Hd. split; [|reflexivity].
  unfold Move_getDelta, Move_move, Move_init. cbn [fromCoo toCoo].
  unfold addVector. rewrite Hd.
  unfold getDistance, Vector_toCoordinates, Vector_minus, Vector_plus,
    Coordinates_getVector. cbn [x y dx dy].
  destruct delta as [a b]. cbn [dx dy]. do 2 f_equal; lia.
Qed.

Lemma X7_move_delta_roundtrip_witness :
  isDouble (mkCoordinates 2 0 true) = true
  /\ Move_getDelta (Move_move (mkCoordinates 2 0 true) (mkVector 1 1))
     = Some (Vector_toCoordinates (mkVector 1 1))
  /\ Move_getDelta (Move_init (addVector (mkCoordinates 2 0 true) (mkVector 1 1)) None) = None.
Proof.
  split; [reflexivity|].
  apply (X7_move_delta_roundtrip (mkCoordinates 2 0 true) (mkVector 1 1)). reflexivity.
Defined.

(** X8: [reversed] swaps origin and destination of a move that has an
    origin; reversing twice gives the move back and the delta of the
    reversed move is the negated delta.  On a move without origin
    [reversed] raises. *)
Theorem X8_reversed_involution (m : Move) (origin : Coordinates) :
  fromCoo m = Some origin ->
  exists r,
    Move_reversed m = Some r
    /\ fromCoo r = Some (toCoo m)
    /\ toCoo r = origin
    /\ Move_reversed r = Some m
    /\ (exists d e, Move_getDelta m = Some d /\ Move_getDelta r = Some e
                    /\ x e = - x d /\ y e = - y d)
    /\ Move_reversed (mkMove None (toCoo m)) = None.
Proof.
  destruct m as [mf mt]. cbn [fromCoo]. intros ->.
  exists (mkMove (Some mt) origin). unfold Move_reversed, Move_getDelta, Move_init.
  cbn [fromCoo toCoo]. repeat split.
  eexists. eexists. split; [reflexivity|]. split; [reflexivity|].
  unfold getDistance, Vector_toCoordinates, Vector_minus, Coordinates_getVector.
  cbn [x y dx dy]. split; lia.
Qed.

Lemma X8_reversed_involution_witness :
  fromCoo (mkMove (Some (mkCoordinates 0 0 true)) (mkCoordinates 2 0 true))
  = Some (mkCoordinates 0 0 true)
  /\ exists r,
    Move_reversed (mkMove (Some (mkCoordinates 0 0 true)) (mkCoordinates 2 0 true)) = Some r
    /\ fromCoo r = Some (toCoo (mkMove (Some (mkCoordinates 0 0 true)) (mkCoordinates 2 0 true)))
    /\ toCoo r = mkCoordinates 0 0 true
    /\ Move_reversed r = Some (mkMove (Some (mkCoordinates 0 0 true)) (mkCoordinates 2 0 true))
    /\ (exists d e,
           Move_getDelta (mkMove (Some (mkCoordinates 0 0 true)) (mkCoordinates 2 0 true)) = Some d
           /\ Move_getDelta r = Some e /\ x e = - x d /\ y e = - y d)
    /\ Move_reversed
         (mkMove None (toCoo (mkMove (Some (mkCoordinates 0 0 true)) (mkCoordinates 2 0 true))))
       = None.
Proof.
  split; [reflexivity|].
  apply (X8_reversed_involution
           (mkMove (Some (mkCoordinates 0 0 true)) (mkCoordinates 2 0 true))
           (mkCoordinates 0 0 true)).
  reflexivity.
Defined.

(** ** Teams and fields *)

(** X9: [Team(color)] succeeds for "ONE" and "TWO" only; [opponent] never
    raises, has no fixed point and is its own inverse; [==] between teams
    answers true exactly for the same team. *)
Theorem X9_team_opponent_involution (t u : Team) (color : string) :
  (exists o, Team_opponent t = Ok o /\ Team_opponent o = Ok t /\ Team_eq t o = false)
  /\ (Team_eq t u = true <-> t = u)
  /\ ((exists v, Team_init color = Ok v) <-> color = "ONE"%string \/ color = "TWO"%string)
  /\ (color <> "ONE"%string -> color <> "TWO"%string ->
      Team_init color = Raise (Exception ("Invalid : " ++ color))).
Proof.
  split; [destruct t as [[|]]; eexists; repeat split|].
  split; [destruct t as [[|]], u as [[|]]; split; intros E; try reflexivity; discriminate|].
  unfold Team_init.
  destruct (String.eqb color "ONE") eqn:E1; [apply String.eqb_eq in E1|apply String.eqb_neq in E1].
  - split; [split; [auto | intros _; eexists; reflexivity] | intros Hn; contradiction].
  - destruct (String.eqb color "TWO") eqn:E2;
      [apply String.eqb_eq in E2|apply String.eqb_neq in E2].
    + split; [split; [auto | intros _; eexists; reflexivity] | intros _ Hn; contradiction].
    + split; [|reflexivity].
      split; [intros [v Hv]; discriminate | intros [Hc | Hc]; contradiction].
Qed.

Lemma X9_team_opponent_involution_witness :
  (exists o, Team_opponent (mkTeam ONE) = Ok o /\ Team_opponent o = Ok (mkTeam ONE)
             /\ Team_eq (mkTeam ONE) o = false)
  /\ (Team_eq (mkTeam ONE) (mkTeam TWO) = true <-> mkTeam ONE = mkTeam TWO)
  /\ ((exists v, Team_init "R" = Ok v) <-> "R"%string = "ONE"%string \/ "R"%string = "TWO"%string)
  /\ ("R"%string <> "ONE"%string -> "R"%string <> "TWO"%string ->
      Team_init "R" = Raise (Exception ("Invalid : " ++ "R"))).
Proof. apply (X9_team_opponent_involution (mkTeam ONE) (mkTeam TWO) "R"). Defined.

(** X10: a field is never both occupied and fish-valued: an occupied field
    has a penguin, no fish count and is not empty; a field with a fish
    count has no penguin; an empty field has fish count 0. *)
Theorem X10_field_occupied_or_fish (f : Field) :
  (Field_isOccupied f = true <->
   exists t, Field_getPenguin f = Some t)
  /\ (Field_isOccupied f = true -> Field_getFish f = None /\ Field_isEmpty f = false)
  /\ (forall n, Field_getFish f = Some n ->
                Field_getPenguin f = None /\ Field_isOccupied f = false)
  /\ (Field_isEmpty f = true <-> Field_getFish f = Some 0).
Proof.
  destruct f as [i [|n|t]];
    unfold Field_isOccupied, Field_getPenguin, Field_getFish, Field_isEmpty;
    cbn [field].
  - repeat split; try discriminate; intros [t Ht]; discriminate.
  - repeat split; try discriminate; try (intros [t Ht]; discriminate).
    + intros E. apply Z.eqb_eq in E. subst n. reflexivity.
    + intros E. injection E as ->. reflexivity.
  - repeat split; try discriminate; eauto.
Qed.

Lemma X10_field_occupied_or_fish_witness :
  (Field_isOccupied (mkField 0 (FTeam (mkTeam ONE))) = true <->
   exists t, Field_getPenguin (mkField 0 (FTeam (mkTeam ONE))) = Some t)
  /\ (Field_isOccupied (mkField 0 (FTeam (mkTeam ONE))) = true ->
      Field_getFish (mkField 0 (FTeam (mkTeam ONE))) = None
      /\ Field_isEmpty (mkField 0 (FTeam (mkTeam ONE))) = false)
  /\ (forall n, Field_getFish (mkField 0 (FTeam (mkTeam ONE))) = Some n ->
                Field_getPenguin (mkField 0 (FTeam (mkTeam ONE))) = None
                /\ Field_isOccupied (mkField 0 (FTeam (mkTeam ONE))) = false)
  /\ (Field_isEmpty (mkField 0 (FTeam (mkTeam ONE))) = true <->
      Field_getFish (mkField 0 (FTeam (mkTeam ONE))) = Some 0).
Proof. apply (X10_field_occupied_or_fish (mkField 0 (FTeam (mkTeam ONE)))). Defined.

(** ** Boards *)

Lemma areFieldsEmpty_row_iff (row : list Field) :
  areFieldsEmpty_row row = true <-> forall f, In f row -> Field_isEmpty f = true.
Proof.
  induction row as [|g row IH]; simpl.
  - split; [intros _ f [] | reflexivity].
  - destruct (Field_isEmpty g) eqn:E; simpl.
    + rewrite IH. split.
      * intros Hall f [<- | Hin]; [exact E | apply Hall; exact Hin].
      * intros Hall f Hin. apply Hall. right. exact Hin.
    + split; [discriminate|]. intros Hall.
      rewrite (Hall g (or_introl eq_refl)) in E. discriminate.
Qed.

(** X11: [areFieldsEmpty] never raises, whatever the shape of the board,
    and answers true exactly when every field of every row holds the
    integer 0; a board without rows or with empty rows counts as empty, a
    board with a penguin or a [None] field does not. *)
Theorem X11_areFieldsEmpty_iff (b : HexBoard) :
  (areFieldsEmpty b = true <->
   forall row f, In row (gameField b) -> In f row -> field f = FInt 0)
  /\ areFieldsEmpty (mkHexBoard []) = true
  /\ areFieldsEmpty (mkHexBoard ([] :: gameField b)) = areFieldsEmpty b.
Proof.
  split; [|split; reflexivity].
  unfold areFieldsEmpty.
  assert (Hz : forall f, Field_isEmpty f = true <-> field f = FInt 0).
  { intros [i [|n|t]]; unfold Field_isEmpty; cbn [field]; split; try discriminate.
    - intros E. apply Z.eqb_eq in E. subst n. reflexivity.
    - intros E. injection E as ->. reflexivity. }
  induction (gameField b) as [|row rows IH]; simpl.
  - split; [intros _ row f [] | reflexivity].
  - destruct (areFieldsEmpty_row row) eqn:E.
    + rewrite IH. pose proof (proj1 (areFieldsEmpty_row_iff row) E) as E'. split.
      * intros Hall r f [<- | Hin] Hf; [apply Hz; apply E'; exact Hf | eapply Hall; eauto].
      * intros Hall r f Hin Hf. apply (Hall r f); [right; exact Hin | exact Hf].
    + split; [discriminate|]. intros Hall.
      assert (Et : areFieldsEmpty_row row = true).
      { apply areFieldsEmpty_row_iff. intros f Hf. apply Hz.
        apply (Hall row f); [left; reflexivity | exact Hf]. }
      congruence.
Qed.

Lemma getitem_In {A} (l : list A) (i : Z) (a : A) : getitem l i = Ok a -> In a l.
Proof.
  unfold getitem. destruct ((if i <? 0 then i + len l else i) <? 0); [discriminate|].
  destruct (nth_error l _) as [a'|] eqn:E; [|discriminate].
  intros E'. injection E' as <-. eapply nth_error_In. exact E.
Qed.

Lemma Field_in_In (f : Field) (row : list Field) : In f row -> Field_in f row = true.
Proof.
  induction row as [|e row IH]; simpl; [contradiction|].
  intros [-> | Hin].
  - rewrite Nat.eqb_refl. reflexivity.
  - destruct (Nat.eqb (oid e) (oid f)); [reflexivity | apply IH; exact Hin].
Qed.

Lemma contains_rows_In (rows : list (list Field)) (row : list Field) (f : Field) :
  In row rows -> In f row -> contains_rows rows f = true.
Proof.
  induction rows as [|r rows IH]; simpl; [contradiction|].
  intros [-> | Hin] Hf.
  - rewrite (Field_in_In f row Hf). reflexivity.
  - destruct (Field_in f r); [reflexivity | apply IH; assumption].
Qed.

Lemma containsAll_forall (b : HexBoard) (fields : list Field) :
  (forall f, In f fields -> HexBoard_contains b f = true) ->
  HexBoard_containsAll b fields = true.
Proof.
  induction fields as [|f fields IH]; simpl; [reflexivity|].
  intros Hall. rewrite (Hall f (or_introl eq_refl)). simpl.
  apply IH. intros g Hg. apply Hall. right. exact Hg.
Qed.

Lemma cell_contains (b : HexBoard) (i j : Z) (f : Field) :
  cell b i j = Some f -> HexBoard_contains b f = true.
Proof.
  unfold cell, HexBoard_contains.
  destruct (nth_error (gameField b) (Z.to_nat i)) as [row|] eqn:E; [|discriminate].
  intros Ef. eapply contains_rows_In; eapply nth_error_In; eauto.
Qed.

(** X12: on any board, whatever [getField] or [getFieldOrNone] returns is a
    field the board [contains]. *)
Theorem X12_lookup_result_contained (b : HexBoard) (c : Coordinates) (f : Field) :
  getField b c = Ok f \/ getFieldOrNone b c = Ok (Some f) ->
  HexBoard_contains b f = true.
Proof.
  assert (Hg : HexBoard__getField b (x (getArray c)) (y (getArray c)) = Ok f ->
               HexBoard_contains b f = true).
  { unfold HexBoard__getField, HexBoard_contains.
    destruct (getitem (gameField b) (x (getArray c))) as [row|e] eqn:E; [|discriminate].
    rewrite bind_Ok. intros Ef.
    eapply contains_rows_In; eapply getitem_In; eauto. }
  unfold getField, getFieldOrNone.
  destruct (HexBoard_isValid b (getArray c)) as [[|]|e]; cbn [Py.bind];
    intros [E | E]; try discriminate.
  - apply Hg. exact E.
  - apply Hg.
    destruct (HexBoard__getField b (x (getArray c)) (y (getArray c))) as [g|e];
      cbn [Py.bind] in E; [injection E as ->; reflexivity | discriminate].
Qed.

Lemma X12_lookup_result_contained_witness :
  (getField board2x2 (mkCoordinates 1 0 false) = Ok (mkField 2 (FInt 1))
   \/ getFieldOrNone board2x2 (mkCoordinates 1 0 false) = Ok (Some (mkField 2 (FInt 1))))
  /\ HexBoard_contains board2x2 (mkField 2 (FInt 1)) = true.
Proof.
  split; [left; reflexivity|].
  apply (X12_lookup_result_contained board2x2 (mkCoordinates 1 0 false)).
  left. reflexivity.
Defined.

Lemma length_range (n : Z) : List.length (range n) = Z.to_nat n.
Proof.
  unfold range, range2. rewrite length_map, length_seq. f_equal. lia.
Qed.

Lemma length_flat_map_le {A B} (l : list A) (g : A -> list B) (n : nat) :
  (forall a, (List.length (g a) <= n)%nat) ->
  (List.length (flat_map g l) <= List.length l * n)%nat.
Proof.
  intros Hg. induction l as [|a l IH]; simpl; [lia|].
  rewrite length_app. specialize (Hg a). lia.
Qed.

(** A scan that keeps at most one item per cell keeps at most [W * H]. *)
Lemma length_scan_le {B} (W H : Z) (g : Z -> Z -> list B) :
  0 <= W -> 0 <= H ->
  (forall i j, (List.length (g i j) <= 1)%nat) ->
  len (flat_map (fun i => flat_map (g i) (range H)) (range W)) <= W * H.
Proof.
  intros HW HH Hg. unfold len.
  pose proof (length_flat_map_le (range W) (fun i => flat_map (g i) (range H))
                (Z.to_nat H)) as Hb.
  rewrite length_range in Hb.
  assert (Hrow : forall i, (List.length (flat_map (g i) (range H)) <= Z.to_nat H)%nat).
  { intros i. pose proof (length_flat_map_le (range H) (g i) 1%nat (Hg i)) as Hi.
    rewrite length_range in Hi. lia. }
  specialize (Hb Hrow). nia.
Qed.

(** X13: on two boards of the same width and height, [compareTo] returns,
    and the receiver [containsAll] of what it returns. *)
Theorem X13_compareTo_reports_own_fields (b b' : HexBoard) (W H : Z) :
  rectangular b W H -> rectangular b' W H ->
  exists diff,
    HexBoard_compareTo b b' = Ok diff
    /\ HexBoard_containsAll b diff = true
    /\ (len diff <= W * H).
Proof.
  intros Hr Hr'. exists (diff_scan b b' W H).
  split; [apply compareTo_rect; assumption|]. split.
  - apply containsAll_forall. intros f Hin. apply in_diff_scan in Hin.
    destruct Hin as (i & j & g & _ & _ & Ef & _). eapply cell_contains. exact Ef.
  - pose proof (rectangular_inv _ _ _ Hr) as (_ & _ & HW & HH & _).
    unfold diff_scan. apply length_scan_le; [lia | lia |].
    intros i j. destruct (cell b i j); [|simpl; lia].
    destruct (cell b' i j); [|simpl; lia].
    destruct (Field_ne _ _); simpl; lia.
Qed.

Lemma X13_compareTo_reports_own_fields_witness :
  rectangular board2x2 2 2 /\ rectangular board2x2_copy 2 2
  /\ exists diff,
    HexBoard_compareTo board2x2 board2x2_copy = Ok diff
    /\ HexBoard_containsAll board2x2 diff = true
    /\ (len diff <= 2 * 2).
Proof.
  split; [reflexivity|]. split; [reflexivity|].
  apply (X13_compareTo_reports_own_fields board2x2 board2x2_copy 2 2); reflexivity.
Defined.

(** X28: on a board of width [W] and height [H] and for a coordinate in
    array form, [isValid] answers, true exactly when [0 <= x < W] and
    [0 <= y < H]; [getField] raises [IndexError] when it is false and
    returns the cell [gameField[x][y]] otherwise; [getFieldOrNone] never
    raises: it returns that cell or [None]. *)
Theorem X28_array_form_lookups (b : HexBoard) (W H : Z) (c : Coordinates) :
  rectangular b W H -> isDouble c = false ->
  exists v,
    HexBoard_isValid b c = Ok v
    /\ (v = true <-> 0 <= x c < W /\ 0 <= y c < H)
    /\ (v = false -> getField b c = Raise IndexError
                     /\ getFieldOrNone b c = Ok None)
    /\ (v = true -> exists f, getField b c = Ok f
                              /\ getFieldOrNone b c = Ok (Some f)
                              /\ cell b (x c) (y c) = Some f).
Proof.
  intros Hr Hc. pose proof (getArray_array c Hc) as Ea.
  exists (in_bounds W H c).
  split; [rewrite (isValid_rect b W H) by exact Hr; rewrite Ea; reflexivity|].
  split; [apply in_bounds_iff|].
  split.
  - intros Hv. split.
    + apply (getField_rect_invalid b W H); [exact Hr | rewrite Ea; exact Hv].
    + unfold getFieldOrNone. rewrite (isValid_rect b W H) by exact Hr.
      rewrite getArray_idem, Ea, Hv. reflexivity.
  - intros Hv.
    destruct (getField_rect_valid b W H c Hr) as [f [E1 E2]]; [rewrite Ea; exact Hv|].
    rewrite Ea in E2.
    exists f. split; [exact E1|]. split.
    + unfold getFieldOrNone. rewrite (isValid_rect b W H) by exact Hr.
      rewrite getArray_idem, Ea, Hv, bind_Ok, E2. reflexivity.
    + apply in_bounds_iff in Hv.
      destruct (getField_rect_cell b W H _ _ Hr (proj1 Hv) (proj2 Hv)) as [f' [E3 E4]].
      congruence.
Qed.

Lemma X28_array_form_lookups_witness :
  rectangular board2x2 2 2 /\ isDouble (mkCoordinates 2 1 false) = false
  /\ exists v,
    HexBoard_isValid board2x2 (mkCoordinates 2 1 false) = Ok v
    /\ (v = true <-> 0 <= x (mkCoordinates 2 1 false) < 2 /\ 0 <= y (mkCoordinates 2 1 false) < 2)
    /\ (v = false -> getField board2x2 (mkCoordinates 2 1 false) = Raise IndexError
                     /\ getFieldOrNone board2x2 (mkCoordinates 2 1 false) = Ok None)
    /\ (v = true -> exists f, getField board2x2 (mkCoordinates 2 1 false) = Ok f
                              /\ getFieldOrNone board2x2 (mkCoordinates 2 1 false) = Ok (Some f)
                              /\ cell board2x2 (x (mkCoordinates 2 1 false))
                                               (y (mkCoordinates 2 1 false)) = Some f).
Proof.
  split; [reflexivity|]. split; [reflexivity|].
  apply (X28_array_form_lookups board2x2 2 2 (mkCoordinates 2 1 false)); reflexivity.
Defined.

(** X14: on a board of width [W] and height [H] and for a coordinate in
    array form, [isOccupied] raises [IndexError] when the coordinate is off
    the board and otherwise tells whether that cell holds a penguin;
    [__isDirectionValid] never raises: it answers false off the board, and
    on the board true exactly for a cell that holds no penguin and is not
    empty. *)
Theorem X14_occupancy_tests (b : HexBoard) (W H : Z) (c : Coordinates) :
  rectangular b W H -> isDouble c = false ->
  (in_bounds W H c = false ->
   HexBoard_isOccupied b c = Raise IndexError
   /\ Board__isDirectionValid (mkBoard b) c = Ok false)
  /\ (in_bounds W H c = true ->
      exists f,
        cell b (x c) (y c) = Some f
        /\ HexBoard_isOccupied b c = Ok (Field_isOccupied f)
        /\ Board__isDirectionValid (mkBoard b) c
           = Ok (negb (Field_isOccupied f) && negb (Field_isEmpty f))).
Proof.
  intros Hr Hc. pose proof (getArray_array c Hc) as Ea.
  split; intros Hv.
  - split.
    + unfold HexBoard_isOccupied.
      rewrite (getField_rect_invalid b W H)
        by (rewrite ?getArray_idem, ?Ea; assumption).
      reflexivity.
    + unfold Board__isDirectionValid. cbn [hexFields].
      rewrite (isValid_rect b W H) by exact Hr.
      rewrite getArray_idem, Ea, Hv. reflexivity.
  - destruct (getField_rect_valid b W H (getArray c) Hr) as [f [E1 E2]];
      [rewrite getArray_idem, Ea; exact Hv|].
    rewrite getArray_idem in E2.
    pose proof (proj1 (in_bounds_iff W H c) Hv) as [Hx Hy].
    destruct (getField_rect_cell b W H _ _ Hr Hx Hy) as [f' [E3 E4]].
    rewrite Ea in E2.
    assert (f' = f) by congruence. subst f'.
    exists f. split; [exact E4|]. split.
    + unfold HexBoard_isOccupied. rewrite E1. reflexivity.
    + unfold Board__isDirectionValid, HexBoard_isOccupied. cbn [hexFields].
      rewrite (isValid_rect b W H) by exact Hr.
      rewrite !getArray_idem, Ea, Hv, bind_Ok.
      rewrite Ea in E1. rewrite E1, !bind_Ok.
      destruct (Field_isOccupied f); reflexivity.
Qed.

Lemma X14_occupancy_tests_witness :
  rectangular board_crowded 2 2 /\ isDouble (mkCoordinates 0 1 false) = false
  /\ (in_bounds 2 2 (mkCoordinates 0 1 false) = false ->
      HexBoard_isOccupied board_crowded (mkCoordinates 0 1 false) = Raise IndexError
      /\ Board__isDirectionValid (mkBoard board_crowded) (mkCoordinates 0 1 false) = Ok false)
  /\ (in_bounds 2 2 (mkCoordinates 0 1 false) = true ->
      exists f,
        cell board_crowded (x (mkCoordinates 0 1 false)) (y (mkCoordinates 0 1 false)) = Some f
        /\ HexBoard_isOccupied board_crowded (mkCoordinates 0 1 false)
           = Ok (Field_isOccupied f)
        /\ Board__isDirectionValid (mkBoard board_crowded) (mkCoordinates 0 1 false)
           = Ok (negb (Field_isOccupied f) && negb (Field_isEmpty f))).
Proof.
  split; [reflexivity|]. split; [reflexivity|].
  apply (X14_occupancy_tests board_crowded 2 2 (mkCoordinates 0 1 false)); reflexivity.
Defined.

Lemma length_range2 (a b : Z) : List.length (range2 a b) = Z.to_nat (b - a).
Proof. unfold range2. rewrite length_map, length_seq. reflexivity. Qed.

Lemma rays_count (W : Z) (p : Coordinates) :
  0 < W ->
  len (rays W p) = 6 * (W - 1)
  /\ forall m, In m (rays W p) -> fromCoo m = Some p /\ isDouble (toCoo m) = true.
Proof.
  intros HW. split.
  - unfold rays, DIRECTIONS, len. cbn [flat_map]. rewrite !length_app. unfold ray.
    rewrite !length_map, !length_range2. cbn [List.length]. lia.
  - intros m Hin. split; [eapply in_rays_from; exact Hin|].
    unfold rays, ray in Hin. apply in_flat_map in Hin. destruct Hin as [d [_ Hin]].
    apply in_map_iff in Hin. destruct Hin as [i [<- _]].
    unfold Move_init. cbn [toCoo]. rewrite addVector_keeps_tag.
    destruct p as [px py [|]]; reflexivity.
Qed.

(** X15: on a board of width [W] and height [H], for a position in array
    form, [possibleMovesFrom] raises [IndexError] when the position is off
    the board and otherwise returns exactly [6 * (W - 1)] moves, whatever the
    cells hold and whatever [H] is, each starting at the position and ending
    at a double-hex tagged coordinate.  The same [6 * (W - 1)] moves come
    back for the double-hex form of every cell of the board. *)
Theorem X15_possibleMovesFrom_count (b : Board) (W H : Z) (a : Coordinates) :
  rectangular (hexFields b) W H -> isDouble a = false -> W <= 2 ^ 52 ->
  (in_bounds W H a = false -> possibleMovesFrom b a = Raise IndexError)
  /\ (in_bounds W H a = true ->
      forall p, p = a \/ p = arrayToDoubleHex a ->
      exists ms,
        possibleMovesFrom b p = Ok ms
        /\ len ms = 6 * (W - 1)
        /\ forall m, In m ms -> fromCoo m = Some p /\ isDouble (toCoo m) = true).
Proof.
  intros Hr Ha _. pose proof (rectangular_inv _ _ _ Hr) as (_ & _ & HW & _).
  pose proof (getArray_array a Ha) as Ea.
  split; intros Hv.
  - unfold possibleMovesFrom. rewrite (isValid_rect _ W H) by exact Hr.
    rewrite Ea, Hv. reflexivity.
  - intros p Hp. exists (rays W p).
    destruct (rays_count W p HW) as [Hlen Hall].
    split; [|split; assumption].
    apply (possibleMovesFrom_rect b W H); [exact Hr|].
    destruct Hp as [-> | ->]; [rewrite Ea; exact Hv|].
    apply in_bounds_iff in Hv. destruct Hv as [Hx Hy].
    destruct a as [ax ay at_]. cbn [isDouble] in Ha. subst at_. cbn [x y] in Hx, Hy.
    apply in_bounds_iff.
    pose proof (roundtrip_column_bounds ax ay (proj1 Hx)) as Hb. cbv zeta in Hb.
    unfold getArray. cbn [isDouble arrayToDoubleHex negb]. lia.
Qed.

Lemma X15_possibleMovesFrom_count_witness :
  rectangular (hexFields (mkBoard board2x2)) 2 2
  /\ isDouble (mkCoordinates 1 1 false) = false /\ 2 <= 2 ^ 52
  /\ (in_bounds 2 2 (mkCoordinates 1 1 false) = false ->
      possibleMovesFrom (mkBoard board2x2) (mkCoordinates 1 1 false) = Raise IndexError)
  /\ (in_bounds 2 2 (mkCoordinates 1 1 false) = true ->
      forall p, p = mkCoordinates 1 1 false \/ p = arrayToDoubleHex (mkCoordinates 1 1 false) ->
      exists ms,
        possibleMovesFrom (mkBoard board2x2) p = Ok ms
        /\ len ms = 6 * (2 - 1)
        /\ forall m, In m ms -> fromCoo m = Some p /\ isDouble (toCoo m) = true).
Proof.
  split; [reflexivity|]. split; [reflexivity|]. split; [discriminate|].
  apply (X15_possibleMovesFrom_count (mkBoard board2x2) 2 2 (mkCoordinates 1 1 false));
    [reflexivity | reflexivity | discriminate].
Defined.

(** ** Pieces of a team *)

Lemma in_penguins_scan (hb : HexBoard) (W H : Z) (team : Team) (p : Coordinates) :
  rectangular hb W H ->
  (In p (penguins_scan hb W H team) <->
   exists i j f t,
     0 <= i < W /\ 0 <= j < H
     /\ p = arrayToDoubleHex (mkCoordinates i j false)
     /\ getField hb (mkCoordinates i j false) = Ok f
     /\ Field_getPenguin f = Some t
     /\ Team_eq t team = true).
Proof.
  intros Hr. unfold penguins_scan. split.
  - intros Hin.
    apply in_flat_map in Hin. destruct Hin as [i [Hi Hin]].
    apply in_flat_map in Hin. destruct Hin as [j [Hj Hin]].
    apply in_range in Hi. apply in_range in Hj.
    destruct (getField_array_cell hb W H i j Hr Hi Hj) as [f [E1 E2]].
    rewrite E2 in Hin. unfold occupied_by in Hin.
    destruct (Field_isOccupied f); [|contradiction]. cbn [andb] in Hin.
    destruct (Field_getPenguin f) as [t|] eqn:Et; [|contradiction].
    destruct (Team_eq t team) eqn:Eq; [|contradiction].
    destruct Hin as [<- | []]. exists i, j, f, t. repeat split; try lia; assumption.
  - intros (i & j & f & t & Hi & Hj & -> & Hget & Hp & Hteam).
    destruct (getField_array_cell hb W H i j Hr Hi Hj) as [f' [E1 E2]].
    assert (f' = f) by congruence. subst f'.
    apply in_flat_map. exists i. split; [apply in_range; exact Hi|].
    apply in_flat_map. exists j. split; [apply in_range; exact Hj|].
    rewrite E2. unfold occupied_by. rewrite Hp, Hteam.
    assert (Ho : Field_isOccupied f = true).
    { unfold Field_getPenguin in Hp. unfold Field_isOccupied.
      destruct (field f); congruence. }
    rewrite Ho. left. reflexivity.
Qed.

Lemma arrayToDoubleHex_inj (i j i' j' : Z) :
  arrayToDoubleHex (mkCoordinates i j false) = arrayToDoubleHex (mkCoordinates i' j' false) ->
  i = i' /\ j = j'.
Proof.
  unfold arrayToDoubleHex, row_offset. cbn [x y]. intros E.
  injection E as E1 E2. subst j'. split; [|reflexivity].
  destruct (j mod 2 =? 1); lia.
Qed.

(** X16: the pieces of a game state built on a board of width [W] and
    height [H] are exactly the double-hex forms of the array cells that hold
    a penguin of the current team, and every one of them passes
    [isValid]. *)
Theorem X16_currentPieces (b : Board) (W H tn : Z) (start : Team)
    (fs : Fishes) (lm : option Move) :
  rectangular (hexFields b) W H ->
  exists gs,
    GameState_init b tn start fs lm = Ok gs
    /\ (forall p, In p (currentPieces gs) <->
          exists i j f t,
            0 <= i < W /\ 0 <= j < H
            /\ p = arrayToDoubleHex (mkCoordinates i j false)
            /\ getField (hexFields b) (mkCoordinates i j false) = Ok f
            /\ Field_getPenguin f = Some t
            /\ Team_eq t (currentTeam gs) = true)
    /\ (forall p, In p (currentPieces gs) -> HexBoard_isValid (hexFields b) p = Ok true)
    /\ len (currentPieces gs) <= W * H.
Proof.
  intros Hr.
  pose proof (GameState_init_rect b W H tn start fs lm Hr) as E. cbv zeta in E.
  eexists. split; [exact E|]. cbn [currentPieces currentTeam].
  split; [intros p; apply in_penguins_scan; exact Hr|]. split.
  - intros p Hp. rewrite (isValid_rect _ W H) by exact Hr.
    f_equal. eapply penguins_scan_valid. exact Hp.
  - pose proof (rectangular_inv _ _ _ Hr) as (_ & _ & HW & HH & _).
    unfold penguins_scan. apply length_scan_le; [lia | lia |].
    intros i j. destruct (cell (hexFields b) i j); [|simpl; lia].
    destruct (occupied_by _ _); simpl; lia.
Qed.

Lemma X16_currentPieces_witness :
  rectangular (hexFields (mkBoard board_crowded)) 2 2
  /\ exists gs,
    GameState_init (mkBoard board_crowded) 0 (mkTeam ONE) (mkFishes 0 0) None = Ok gs
    /\ (forall p, In p (currentPieces gs) <->
          exists i j f t,
            0 <= i < 2 /\ 0 <= j < 2
            /\ p = arrayToDoubleHex (mkCoordinates i j false)
            /\ getField (hexFields (mkBoard board_crowded)) (mkCoordinates i j false) = Ok f
            /\ Field_getPenguin f = Some t
            /\ Team_eq t (currentTeam gs) = true)
    /\ (forall p, In p (currentPieces gs) ->
          HexBoard_isValid (hexFields (mkBoard board_crowded)) p = Ok true)
    /\ len (currentPieces gs) <= 2 * 2.
Proof.
  split; [reflexivity|].
  apply (X16_currentPieces (mkBoard board_crowded) 2 2 0 (mkTeam ONE) (mkFishes 0 0) None).
  reflexivity.
Defined.

(** X17: for a turn number from 0 on and below [2^53] (where the float
    division of the constructor is exact), the round of a game state is
    [(turn + 1) // 2]: turn 0 is round 0, and turns 2k - 1 and 2k are
    round k. *)
Theorem X17_round_numbering (b : Board) (W H tn : Z) (start : Team)
    (fs : Fishes) (lm : option Move) :
  rectangular (hexFields b) W H -> 0 <= tn < 2 ^ 53 ->
  exists gs,
    GameState_init b tn start fs lm = Ok gs
    /\ turn gs = tn
    /\ round gs = (tn + 1) / 2
    /\ 2 * round gs - 1 <= tn <= 2 * round gs.
Proof.
  intros Hr [Ht _].
  pose proof (GameState_init_rect b W H tn start fs lm Hr) as E. cbv zeta in E.
  eexists. split; [exact E|]. cbn [turn round].
  unfold Py.int_half. rewrite Z.quot_div_nonneg by lia.
  split; [reflexivity|]. split; [reflexivity|].
  pose proof (Z.div_mod (tn + 1) 2 ltac:(lia)) as Hd.
  pose proof (Z.mod_pos_bound (tn + 1) 2 ltac:(lia)) as Hm. lia.
Qed.

Lemma X17_round_numbering_witness :
  rectangular (hexFields (mkBoard board2x2)) 2 2 /\ 0 <= 3 < 2 ^ 53
  /\ exists gs,
    GameState_init (mkBoard board2x2) 3 (mkTeam ONE) (mkFishes 0 0) None = Ok gs
    /\ turn gs = 3
    /\ round gs = (3 + 1) / 2
    /\ 2 * round gs - 1 <= 3 <= 2 * round gs.
Proof.
  split; [reflexivity|]. split; [split; [discriminate | reflexivity]|].
  apply (X17_round_numbering (mkBoard board2x2) 2 2 3 (mkTeam ONE) (mkFishes 0 0) None);
    [reflexivity | split; [discriminate | reflexivity]].
Defined.

(** X18: on a board of width [W] and height [H], [getTeamsPenguins] returns
    for both teams, no coordinate is reported for a team and for its
    opponent, and every reported coordinate is double-hex tagged. *)
Theorem X18_teams_pieces_disjoint (b : Board) (W H : Z) (t o : Team) :
  rectangular (hexFields b) W H -> Team_opponent t = Ok o ->
  exists mine theirs,
    getTeamsPenguins b t = Ok mine
    /\ getTeamsPenguins b o = Ok theirs
    /\ (forall p, In p mine -> ~ In p theirs)
    /\ (forall p, In p mine -> isDouble p = true).
Proof.
  intros Hr Ho.
  exists (penguins_scan (hexFields b) W H t), (penguins_scan (hexFields b) W H o).
  split; [apply getTeamsPenguins_rect; exact Hr|].
  split; [apply getTeamsPenguins_rect; exact Hr|].
  split.
  - intros p Hin Hin'.
    apply (in_penguins_scan _ W H) in Hin; [|exact Hr].
    apply (in_penguins_scan _ W H) in Hin'; [|exact Hr].
    destruct Hin as (i & j & f & u & _ & _ & Hp & Hf & Hu & Ht).
    destruct Hin' as (i' & j' & f' & u' & _ & _ & Hp' & Hf' & Hu' & Ht').
    rewrite Hp in Hp'. apply arrayToDoubleHex_inj in Hp'. destruct Hp' as [<- <-].
    assert (f' = f) by congruence. subst f'.
    assert (u' = u) by congruence. subst u'.
    rewrite Team_opponent_ok in Ho. injection Ho as <-.
    destruct t as [[|]], u as [[|]]; discriminate.
  - intros p Hin. apply (in_penguins_scan _ W H) in Hin; [|exact Hr].
    destruct Hin as (i & j & _ & _ & _ & _ & -> & _). reflexivity.
Qed.

Lemma X18_teams_pieces_disjoint_witness :
  rectangular (hexFields (mkBoard board_crowded)) 2 2
  /\ Team_opponent (mkTeam ONE) = Ok (mkTeam TWO)
  /\ exists mine theirs,
    getTeamsPenguins (mkBoard board_crowded) (mkTeam ONE) = Ok mine
    /\ getTeamsPenguins (mkBoard board_crowded) (mkTeam TWO) = Ok theirs
    /\ (forall p, In p mine -> ~ In p theirs)
    /\ (forall p, In p mine -> isDouble p = true).
Proof.
  split; [reflexivity|]. split; [reflexivity|].
  apply (X18_teams_pieces_disjoint (mkBoard board_crowded) 2 2 (mkTeam ONE) (mkTeam TWO));
    reflexivity.
Defined.

(** ** The session: joining, stopping, dispatching *)

Section GameClientExtras.

Context {StateT ResultT DataT MoveT GameStateT H : Type}
        {handler : @IClientHandler StateT ResultT DataT MoveT GameStateT H}.
Variable connect_script : nat -> ConnectOutcome.
Variable str_packet : @ProtocolPacket StateT ResultT DataT -> string.
Variable handle_move : MoveT -> DataT.
Variable if_last_game_state :
  @ProtocolPacket StateT ResultT DataT -> GameStateT -> GameStateT.
Variable if_not_last_game_state : @ProtocolPacket StateT ResultT DataT -> GameStateT.

Local Abbreviation client := (@GameClient ResultT DataT GameStateT H).

Lemma join_fields (c : client) :
  trace (join c)
  = trace c ++ [Sent (if nonempty (reservation c) then JoinPrepared (reservation c)
                      else if nonempty (room_id c) then JoinRoom (room_id c)
                      else Join)]
  /\ history (join c) = history c ++ [[]]
  /\ first_time (join c) = false
  /\ running (join c) = running c
  /\ connected (join c) = connected c
  /\ _game_handler (join c) = _game_handler c.
Proof.
  unfold join.
  destruct (nonempty (reservation c)); [|destruct (nonempty (room_id c))];
    repeat split.
Qed.

(** X19: [join] sends exactly one packet, chosen by precedence: the
    reservation code if there is one, else the room id if there is one, else
    a plain join; it opens a new empty history slot, clears [first_time] and
    leaves [running], the connection and the handler alone. *)
Theorem X19_join_precedence (c : client) :
  trace (join c)
  = trace c ++ [Sent (if nonempty (reservation c) then JoinPrepared (reservation c)
                      else if nonempty (room_id c) then JoinRoom (room_id c)
                      else Join)]
  /\ history (join c) = history c ++ [[]]
  /\ first_time (join c) = false
  /\ running (join c) = running c
  /\ connected (join c) = connected c
  /\ _game_handler (join c) = _game_handler c.
Proof. exact (join_fields c). Qed.

(** X20: [stop] can be called again: a second call only logs; in
    particular it does not disconnect a second time. *)
Theorem X20_stop_again (c : client) :
  stop (stop c) = emit (Logged "INFO" "Shutting down...") (stop c)
  /\ running (stop c) = false
  /\ connected (stop c) = false
  /\ history (stop c) = history c
  /\ _game_handler (stop c) = _game_handler c.
Proof.
  destruct c as [h hs rsv rid ar sv rn ft [|] cn tr]; repeat split.
Qed.

(** X21: without auto-reconnect the room-left procedure stops the client:
    it disconnects once, in survive mode calls [while_disconnected] once,
    then stops; it makes no connection attempt, sends nothing and opens no
    history slot. *)
Theorem X21_left_without_reconnect (c : client) :
  auto_reconnect c = false ->
  let c' := _handle_left connect_script c in
  running c' = false
  /\ connected c' = false
  /\ connects c' = connects c
  /\ history c' = history c
  /\ first_time c' = true
  /\ _game_handler c'
     = (if survive c then while_disconnected (_game_handler c) else _game_handler c)
  /\ trace c'
     = trace c ++ [Disconnect]
       ++ (if survive c
           then [Logged "INFO" survive_notice;
                 Called call_while_disconnected]
           else [])
       ++ [Logged "INFO" "The server left."; Logged "INFO" "Shutting down..."].
Proof.
  intros Har. destruct c as [h hs rsv rid ar sv rn ft cd cn tr].
  cbn in Har. subst ar. destruct sv; cbn; rewrite <- ?app_assoc; repeat split.
Qed.

(** The loop of attempts when the first [k] calls of [connect()] return
    without a connection and the next one connects. *)
Lemma reconnect_attempts_success (k n : nat) (c : client) :
  (k < n)%nat -> connected c = false ->
  (forall j, (j < k)%nat -> connect_script (connects c + j)%nat = StaysDown) ->
  connect_script (connects c + k)%nat = Connects ->
  let c' := reconnect_attempts connect_script n c in
  connected c' = true
  /\ connects c' = (connects c + k + 1)%nat
  /\ running c' = running c
  /\ history c' = history c
  /\ first_time c' = first_time c
  /\ reservation c' = reservation c
  /\ room_id c' = room_id c
  /\ _game_handler c' = _game_handler c
  /\ trace c'
     = trace c
       ++ List.concat (repeat [Logged "INFO" "Try to establish a connection with the server...";
                               Connect; Slept 1] k)
       ++ [Logged "INFO" "Try to establish a connection with the server...";
           Connect; Logged "INFO" "Reconnected to server."].
Proof.
  revert n c. induction k as [|k IH]; intros n c Hlt Hc Hdown Hup.
  - destruct n as [|n]; [lia|]. rewrite Nat.add_0_r in Hup.
    destruct c as [h hs rsv rid ar sv rn ft cd cn tr]. cbn in Hc, Hup. subst cd.
    cbn. unfold connect. cbn. rewrite Hup. cbn.
    rewrite <- !app_assoc. repeat split; lia.
  - destruct n as [|n]; [lia|].
    pose proof (Hdown O ltac:(lia)) as H0. rewrite Nat.add_0_r in H0.
    destruct c as [h hs rsv rid ar sv rn ft cd cn tr]. cbn in Hc, Hup, H0, Hdown. subst cd.
    cbn [reconnect_attempts]. unfold connect. cbn [connects emit]. rewrite H0.
    cbn [connected count_connect emit].
    match goal with |- context [reconnect_attempts _ n ?c1] =>
      specialize (IH n c1) end.
    cbn -[reconnect_attempts] in IH.
    destruct IH as (I1 & I2 & I3 & I4 & I5 & I6 & I7 & I8 & I9).
    + lia.
    + reflexivity.
    + intros j Hj.
      match goal with |- connect_script ?a = _ =>
        replace a with (cn + S j)%nat by lia end.
      apply Hdown. lia.
    + match goal with |- connect_script ?a = _ =>
        replace a with (cn + S k)%nat by lia end.
      exact Hup.
    + cbv zeta. rewrite I1, I2, I3, I4, I5, I6, I7, I8, I9.
      cbn [connected connects running history first_time reservation room_id
           _game_handler trace repeat List.concat].
      rewrite <- !app_assoc. cbn [app]. repeat split; lia.
Qed.

(** X22: with auto-reconnect, when the first [k < 3] attempts return
    without a connection and the next one connects, the room-left procedure
    makes exactly [k + 1] attempts with a one-second sleep after each failed
    one, then joins once: the client is connected, [running] is as before
    and one new history slot is open. *)
Theorem X22_reconnect_then_join_once (k : nat) (c : client) :
  auto_reconnect c = true -> survive c = false -> (k < 3)%nat ->
  (forall j, (j < k)%nat -> connect_script (connects c + j)%nat = StaysDown) ->
  connect_script (connects c + k)%nat = Connects ->
  let c' := _handle_left connect_script c in
  connected c' = true
  /\ running c' = running c
  /\ connects c' = (connects c + k + 1)%nat
  /\ history c' = history c ++ [[]]
  /\ first_time c' = false
  /\ trace c'
     = trace c
       ++ [Disconnect;
           Logged "INFO" "The server left. Client tries to reconnect to the server."]
       ++ List.concat (repeat [Logged "INFO" "Try to establish a connection with the server...";
                               Connect; Slept 1] k)
       ++ [Logged "INFO" "Try to establish a connection with the server...";
           Connect; Logged "INFO" "Reconnected to server.";
           Sent (if nonempty (reservation c) then JoinPrepared (reservation c)
                 else if nonempty (room_id c) then JoinRoom (room_id c)
                 else Join)].
Proof.
  intros Har Hsv Hk Hdown Hup.
  destruct c as [h hs rsv rid ar sv rn ft cd cn tr]. cbn in Har, Hsv, Hdown, Hup.
  subst ar sv. unfold _handle_left. cbn -[reconnect_attempts join].
  match goal with |- context [reconnect_attempts _ 3 ?c1] =>
    pose proof (reconnect_attempts_success k 3 c1 Hk eq_refl Hdown Hup) as Hs;
    set (r := reconnect_attempts connect_script 3 c1) in * end.
  cbv zeta in Hs. clearbody r. cbn in Hs.
  destruct Hs as (I1 & I2 & I3 & I4 & I5 & I6 & I7 & I8 & I9).
  destruct (join_fields r) as (J1 & J2 & J3 & J4 & J5 & J6).
  assert (Jc : connects (join r) = connects r).
  { unfold join. destruct (nonempty (reservation r)); [|destruct (nonempty (room_id r))];
      reflexivity. }
  rewrite J1, J2, J3, J4, J5, Jc, I1, I2, I3, I4, I6, I7, I9.
  rewrite <- !app_assoc. cbn [app]. repeat split.
Qed.

Lemma history_append_last (item : @HistoryItem ResultT GameStateT) (c : client)
    (front : list (list HistoryItem)) (last : list HistoryItem) :
  history c = front ++ [last] ->
  history_append item c = Ok (set_history (front ++ [last ++ [item]]) c).
Proof.
  intros Eh. unfold history_append. rewrite Eh, rev_app_distr. cbn [rev app].
  rewrite rev_involutive. reflexivity.
Qed.

Lemma last_game_state_of_snoc (items : list (@HistoryItem ResultT GameStateT))
    (item : HistoryItem) :
  last_game_state_of (rev (items ++ [item]))
  = match item with
    | HGameState g => Some g
    | HResult _ => last_game_state_of (rev items)
    end.
Proof. rewrite rev_app_distr. destruct item; reflexivity. Qed.

(** X23: only an error packet stops the session: whenever the dispatcher
    returns on any other packet, [running], the connection and the
    connection attempts are as before. *)
Theorem X23_only_error_packets_stop (p : ProtocolPacket) (c c' : client) :
  (forall message, p <> Errorpacket message) ->
  _on_object str_packet handle_move if_last_game_state
      if_not_last_game_state p c = Ok c' ->
  running c' = running c
  /\ connected c' = connected c
  /\ connects c' = connects c
  /\ first_time c' = first_time c.
Proof.
  intros Hne. destruct p as [message | rid | rid | rid [ | st | r | d]].
  - exfalso. apply (Hne message). reflexivity.
  - cbn. intros E. injection E as <-. repeat split.
  - cbn. intros E. injection E as <-. repeat split.
  - cbn [_on_object]. unfold _on_move_request.
    destruct (calculate_move (_game_handler c)) as [[m|] h'];
      intros E; injection E as <-; repeat split.
  - cbn [_on_object]. unfold _on_state, history_append.
    destruct (rev (history c)) as [|last front]; [discriminate|].
    cbn. intros E. injection E as <-. repeat split.
  - cbn [_on_object]. unfold history_append.
    destruct (rev (history c)) as [|last front]; [discriminate|].
    cbn. intros E. injection E as <-. repeat split.
  - cbn. intros E. injection E as <-. repeat split.
Qed.

(** X24: a move request calls [calculate_move] once and sends at most one
    packet: the converted move, to the room that asked, when the handler
    returned a move; nothing at all when it returned none. *)
Theorem X24_move_request_reply (room : string) (c : client) :
  exists c' tail,
    _on_object str_packet handle_move if_last_game_state
      if_not_last_game_state (Room room MoveRequest) c = Ok c'
    /\ _game_handler c' = snd (calculate_move (_game_handler c))
    /\ history c' = history c
    /\ trace c' = trace c ++ Called call_calculate_move :: tail
    /\ match fst (calculate_move (_game_handler c)) with
       | Some m => tail = [Logged "INFO" "Sent move";
                           Sent (RoomMessage room (handle_move m))]
       | None => tail = [Logged "ERROR" "not a valid move"]
       end.
Proof.
  cbn [_on_object]. unfold _on_move_request.
  destruct (calculate_move (_game_handler c)) as [[m|] h']; cbn;
    eexists; eexists; (split; [reflexivity|]); cbn;
    rewrite <- ?app_assoc; repeat split.
Qed.

(** X25: a state packet is stored in the newest history slot and
    handed to [on_update]: the new state is built from the newest state of
    that slot if there is one, from the packet alone otherwise, and it is
    the state the next packet will be reconciled against.  Before any join
    there is no slot and the dispatcher raises [IndexError]. *)
Theorem X25_state_update_history (room : string) (st : StateT) (c : client)
    (front : list (list HistoryItem)) (last : list HistoryItem) :
  history c = front ++ [last] ->
  let message := Room room (State st) in
  let g := match last_game_state_of (rev last) with
           | Some previous => if_last_game_state message previous
           | None => if_not_last_game_state message
           end in
  exists c',
    _on_object str_packet handle_move if_last_game_state
      if_not_last_game_state message c = Ok c'
    /\ history c' = front ++ [last ++ [HGameState g]]
    /\ _game_handler c' = on_update g (_game_handler c)
    /\ trace c' = trace c ++ [Called call_on_update]
    /\ last_game_state_of (rev (last ++ [HGameState g])) = Some g
    /\ _on_object str_packet handle_move if_last_game_state
      if_not_last_game_state message (set_history [] c) = Raise IndexError.
Proof.
  intros Eh message g. unfold message in *. cbn [_on_object]. unfold _on_state.
  rewrite Eh, rev_app_distr. cbn [rev app]. fold g.
  rewrite (history_append_last _ c front last Eh), bind_Ok.
  eexists. split; [reflexivity|].
  split; [reflexivity|]. split; [reflexivity|]. split; [reflexivity|].
  split; [apply (last_game_state_of_snoc last (HGameState g))|].
  reflexivity.
Qed.

(** X26: a result packet is stored in the newest history slot before
    [on_game_over] is called; it does not hide the newest game state of the
    slot.  Before any join the dispatcher raises [IndexError]. *)
Theorem X26_result_history (room : string) (r : ResultT) (c : client)
    (front : list (list HistoryItem)) (last : list HistoryItem) :
  history c = front ++ [last] ->
  exists c',
    _on_object str_packet handle_move if_last_game_state
      if_not_last_game_state (Room room (Result r)) c = Ok c'
    /\ history c' = front ++ [last ++ [HResult r]]
    /\ _game_handler c' = on_game_over r (_game_handler c)
    /\ trace c' = trace c ++ [Called call_on_game_over]
    /\ last_game_state_of (rev (last ++ [HResult r])) = last_game_state_of (rev last)
    /\ _on_object str_packet handle_move if_last_game_state
      if_not_last_game_state (Room room (Result r)) (set_history [] c) = Raise IndexError.
Proof.
  intros Eh. cbn [_on_object].
  rewrite (history_append_last _ c front last Eh), bind_Ok.
  eexists. split; [reflexivity|].
  split; [reflexivity|]. split; [reflexivity|]. split; [reflexivity|].
  split; [apply (last_game_state_of_snoc last (HResult r))|].
  reflexivity.
Qed.

(** X27: one round of the receive loop of a connected client.  A
    room-left packet without auto-reconnect calls [on_game_left] once and
    ends with the client stopped and disconnected.  No response leaves the
    client as it is.  An object of unknown class raises
    [NotImplementedError] while the client is running. *)
Theorem X27_loop_round (room : string) (c : client) :
  connected c = true -> auto_reconnect c = false ->
  (exists c',
      _client_loop_body connect_script str_packet handle_move
        if_last_game_state if_not_last_game_state (Packet (Left room)) c = Ok c'
      /\ running c' = false
      /\ connected c' = false
      /\ history c' = history c
      /\ _game_handler c'
         = (if survive c then while_disconnected (on_game_left (_game_handler c))
            else on_game_left (_game_handler c)))
  /\ _client_loop_body connect_script str_packet handle_move
        if_last_game_state if_not_last_game_state NoResponse c = Ok c
  /\ (running c = true ->
      _client_loop_body connect_script str_packet handle_move
        if_last_game_state if_not_last_game_state UnknownObject c
      = Raise (NotImplementedError "Received object of unknown class.")).
Proof.
  intros Hc Har. destruct c as [h hs rsv rid ar sv rn ft cd cn tr].
  cbn in Hc, Har. subst cd ar. split; [|split].
  - unfold _client_loop_body. cbn [connected].
    eexists. split; [reflexivity|]. destruct sv; cbn; repeat split.
  - reflexivity.
  - cbn. intros ->. reflexivity.
Qed.

End GameClientExtras.

Lemma X21_left_without_reconnect_witness :
  let c := mkGameClient tt [[]] "" "" false true true false true 0 [] in
  auto_reconnect c = false
  /\ let c' := _handle_left never_up c in
     running c' = false
     /\ connected c' = false
     /\ connects c' = connects c
     /\ history c' = history c
     /\ first_time c' = true
     /\ _game_handler c'
        = (if survive c then while_disconnected (_game_handler c) else _game_handler c)
     /\ trace c'
        = trace c ++ [Disconnect]
          ++ (if survive c
              then [Logged "INFO" survive_notice;
                    Called call_while_disconnected]
              else [])
          ++ [Logged "INFO" "The server left."; Logged "INFO" "Shutting down..."].
Proof.
  split; [reflexivity|].
  apply (X21_left_without_reconnect never_up
           (mkGameClient tt [[]] "" "" false true true false true 0 [])).
  reflexivity.
Defined.

Lemma X22_reconnect_then_join_once_witness :
  auto_reconnect reconnecting_client = true
  /\ survive reconnecting_client = false
  /\ (1 < 3)%nat
  /\ (forall j, (j < 1)%nat -> up_on_second (connects reconnecting_client + j)%nat = StaysDown)
  /\ up_on_second (connects reconnecting_client + 1)%nat = Connects
  /\ let c' := _handle_left up_on_second reconnecting_client in
     connected c' = true
     /\ running c' = running reconnecting_client
     /\ connects c' = (connects reconnecting_client + 1 + 1)%nat
     /\ history c' = history reconnecting_client ++ [[]]
     /\ first_time c' = false
     /\ trace c'
        = trace reconnecting_client
          ++ [Disconnect;
              Logged "INFO" "The server left. Client tries to reconnect to the server."]
          ++ List.concat (repeat [Logged "INFO" "Try to establish a connection with the server...";
                                  Connect; Slept 1] 1)
          ++ [Logged "INFO" "Try to establish a connection with the server...";
              Connect; Logged "INFO" "Reconnected to server.";
              Sent (if nonempty (reservation reconnecting_client)
                    then JoinPrepared (reservation reconnecting_client)
                    else if nonempty (room_id reconnecting_client)
                         then JoinRoom (room_id reconnecting_client)
                         else Join)].
Proof.
  assert (Hdown : forall j, (j < 1)%nat ->
            up_on_second (connects reconnecting_client + j)%nat = StaysDown).
  { intros j Hj. destruct j as [|j]; [reflexivity | lia]. }
  split; [reflexivity|]. split; [reflexivity|]. split; [lia|].
  split; [exact Hdown|]. split; [reflexivity|].
  apply (X22_reconnect_then_join_once up_on_second 1 reconnecting_client);
    [reflexivity | reflexivity | lia | exact Hdown | reflexivity].
Defined.

Lemma X23_only_error_packets_stop_witness :
  let p : @ProtocolPacket unit unit unit := Joined "room" in
  let c' := set_handler tt (emit (Called (call_on_game_joined "room")) reconnecting_client) in
  (forall message, p <> Errorpacket message)
  /\ _on_object (fun _ => EmptyString) (fun m => m) (fun _ g => g) (fun _ => tt)
       p reconnecting_client = Ok c'
  /\ running c' = running reconnecting_client
  /\ connected c' = connected reconnecting_client
  /\ connects c' = connects reconnecting_client
  /\ first_time c' = first_time reconnecting_client.
Proof.
  split; [intros message; discriminate|]. split; [reflexivity|].
  apply (X23_only_error_packets_stop (fun _ => EmptyString) (fun m => m)
           (fun _ g => g) (fun _ => tt) (Joined "room") reconnecting_client);
    [intros message; discriminate | reflexivity].
Defined.

Lemma X25_state_update_history_witness :
  history reconnecting_client = [] ++ [[]]
  /\ let message : @ProtocolPacket unit unit unit := Room "room" (State tt) in
     let g := match last_game_state_of (rev (@nil (@HistoryItem unit unit))) with
              | Some previous => (fun _ g => g) message previous
              | None => (fun _ => tt) message
              end in
     exists c',
       _on_object (fun _ => EmptyString) (fun m => m) (fun _ g => g) (fun _ => tt)
         message reconnecting_client = Ok c'
       /\ history c' = [] ++ [[] ++ [HGameState g]]
       /\ _game_handler c' = on_update g (_game_handler reconnecting_client)
       /\ trace c' = trace reconnecting_client ++ [Called call_on_update]
       /\ last_game_state_of (rev ([] ++ [@HGameState unit unit g])) = Some g
       /\ _on_object (fun _ => EmptyString) (fun m => m) (fun _ g => g) (fun _ => tt)
            message (set_history [] reconnecting_client) = Raise IndexError.
Proof.
  split; [reflexivity|].
  apply (X25_state_update_history (fun _ => EmptyString) (fun m => m)
           (fun _ g => g) (fun _ => tt) "room" tt reconnecting_client [] []).
  reflexivity.
Defined.

Lemma X26_result_history_witness :
  history reconnecting_client = [] ++ [[]]
  /\ exists c',
    _on_object (fun _ => EmptyString) (fun m => m) (fun _ g => g) (fun _ => tt)
      (Room "room" (Result tt)) reconnecting_client = Ok c'
    /\ history c' = [] ++ [[] ++ [HResult tt]]
    /\ _game_handler c' = on_game_over tt (_game_handler reconnecting_client)
    /\ trace c' = trace reconnecting_client ++ [Called call_on_game_over]
    /\ last_game_state_of (rev ([] ++ [@HResult unit unit tt]))
       = last_game_state_of (rev (@nil (@HistoryItem unit unit)))
    /\ _on_object (fun _ => EmptyString) (fun m => m) (fun _ g => g) (fun _ => tt)
         (Room "room" (Result tt)) (set_history [] reconnecting_client) = Raise IndexError.
Proof.
  split; [reflexivity|].
  apply (X26_result_history (fun _ => EmptyString) (fun m => m)
           (fun _ g => g) (fun _ => tt) "room" tt reconnecting_client [] []).
  reflexivity.
Defined.

Lemma X27_loop_round_witness :
  let c := mkGameClient tt [[]] "" "" false false true false true 0 [] in
  connected c = true /\ auto_reconnect c = false
  /\ (exists c',
         _client_loop_body never_up (fun _ => EmptyString) (fun m => m)
           (fun _ g => g) (fun _ => tt) (Packet (Left "room")) c = Ok c'
         /\ running c' = false
         /\ connected c' = false
         /\ history c' = history c
         /\ _game_handler c'
            = (if survive c then while_disconnected (on_game_left (_game_handler c))
               else on_game_left (_game_handler c)))
  /\ _client_loop_body never_up (fun _ => EmptyString) (fun m => m)
       (fun _ g => g) (fun _ => tt) NoResponse c = Ok c
  /\ (running c = true ->
      _client_loop_body never_up (fun _ => EmptyString) (fun m => m)
        (fun _ g => g) (fun _ => tt) UnknownObject c
      = Raise (NotImplementedError "Received object of unknown class.")).
Proof.
  split; [reflexivity|]. split; [reflexivity|].
  apply (X27_loop_round (H := unit) never_up (fun _ => EmptyString) (fun m => m)
           (fun _ g => g) (fun _ => tt) "room"
           (mkGameClient tt [[]] "" "" false false true false true 0 []));
    reflexivity.
Defined.

